(** * AirCharLogger: the acquisition firmware of the AirChar data set

    A shallow embedding of [AirCharLogger/AirCharLogger.ino]: the two-state
    sampling machine, its six bounded channel buffers, the serial command
    handler and the download formatter, followed by the properties the
    design document states about them.

    Modelling conventions.
    - The globals of the sketch ([sampling], [sampleIndex] and the six
      channel arrays) together with the bytes written to [Serial] form the
      record [State]; every function of the sketch is a computation in the
      state-and-fault monad [M].
    - An array access outside [0, length) is undefined behaviour in C++; it
      is the fault [OutOfBounds].  [while (1);] is the fault [Hang].
    - [int] is 32 bits wide on the Nano 33 BLE; [i++] is written with its
      wrap-around.
    - [BUFFER_SIZE] is the macro [SAMPLE_RATE * DURATION]; in both places
      where the sketch uses it (an array bound and the right operand of
      [<]) the unparenthesised product reads as the product.
    - The sketch never computes with a [float]: it stores what the IMU
      driver hands over and passes it to [Serial.print(x, 6)].  The float
      type, the zero that fills static storage and the core's float printer
      are therefore the interface [Platform].
    - One call of [loop()] consumes one [Event]: the line
      [Serial.readStringUntil] would return (if any byte is available) and
      the status and registers of the IMU at that moment.  A line is
      any sequence of bytes other than the terminator, the byte 0 included
      ([readStringUntil] appends every byte it reads); the [String]
      operations follow the implementation of the Arduino core, where
      comparisons work on the C string and so end at the first byte 0.
    - [delay] and the wait for the host in [setup] only let time pass; time
      is not part of the state. *)

From Stdlib Require Import ZArith Lia Ascii String.
From stdpp Require Import base tactics option list strings pretty.

Local Open Scope Z_scope.

(** ** Arduino [String] operations used by the sketch *)

(** C [isspace] in the default locale: space and the controls 9..13. *)
Definition isspace (c : ascii) : bool :=
  let n := nat_of_ascii c in
  Nat.eqb n 32 || (Nat.leb 9 n && Nat.leb n 13).

Definition tolower (c : ascii) : ascii :=
  let n := nat_of_ascii c in
  if Nat.leb 65 n && Nat.leb n 90 then ascii_of_nat (n + 32) else c.

Fixpoint trim_leading (s : string) : string :=
  match s with
  | EmptyString => EmptyString
  | String c s' => if isspace c then trim_leading s' else s
  end.

Fixpoint trim_trailing (s : string) : string :=
  match s with
  | EmptyString => EmptyString
  | String c s' =>
      match trim_trailing s' with
      | EmptyString => if isspace c then EmptyString else String c EmptyString
      | t => String c t
      end
  end.

(** [String::trim]: drops leading and trailing white space. *)
Definition trim (s : string) : string := trim_trailing (trim_leading s).

(** The byte 0, which ends a C string. *)
Definition NUL : ascii := ascii_of_nat 0.

(** What the C library sees of a [String] buffer: the characters before
    the first byte 0. *)
Fixpoint c_str (s : string) : string :=
  match s with
  | EmptyString => EmptyString
  | String c s' => if bool_decide (c = NUL) then EmptyString else String c (c_str s')
  end.

(** [String::equals] on a C string argument: [strcmp] of the buffer with
    the argument, so only the characters before the first byte 0 count. *)
Definition equals (a b : string) : bool := bool_decide (c_str a = c_str b).

(** The loop of [String::equalsIgnoreCase], which compares the lowered
    characters of the two buffers one by one while the character of the
    receiver is not the byte 0. *)
Fixpoint same_until_nul (a b : string) : bool :=
  match a with
  | EmptyString => true
  | String x a' =>
      if bool_decide (x = NUL) then true
      else match b with
           | EmptyString => false
           | String y b' =>
               bool_decide (tolower x = tolower y) && same_until_nul a' b'
           end
  end.

(** [String::equalsIgnoreCase]: the lengths must agree, then the loop
    above decides. *)
Definition equalsIgnoreCase (a b : string) : bool :=
  Nat.eqb (String.length a) (String.length b) && same_until_nul a b.

(** The line terminator [Print::println] appends. *)
Definition CRLF : string :=
  String (ascii_of_nat 13) (String (ascii_of_nat 10) EmptyString).

(** ** Configuration constants *)

Definition SAMPLE_RATE : Z := 100.
Definition DURATION : Z := 30.
Definition BUFFER_SIZE : Z := SAMPLE_RATE * DURATION.

(** Two's-complement wrap-around of a 32-bit [int]. *)
Definition wrap_int (z : Z) : Z := (z + 2 ^ 31) mod 2 ^ 32 - 2 ^ 31.

(** ** What the sketch takes from the board support *)

Class Platform := {
  float : Type;
  (** the value of zero-initialised static storage *)
  zero : float;
  (** [Print::print(double, int digits)] as text *)
  printFloat : float -> nat -> string
}.

Inductive Channel := AccelX | AccelY | AccelZ | GyroX | GyroY | GyroZ.

Inductive AcqState := Idle | Sampling.

Section Firmware.
Context {P : Platform}.

Definition triple : Type := float * float * float.

(** The IMU as one iteration of [loop] sees it. *)
Record IMU := mkIMU {
  accelerationAvailable : bool;
  gyroscopeAvailable : bool;
  readAcceleration : triple;
  readGyroscope : triple
}.

Record Event := mkEvent {
  (** [None]: [Serial.available() = 0]; [Some l]: the line read up to the
      terminator *)
  serial_line : option string;
  imu : IMU
}.

Record State := mkState {
  accelX : list float;
  accelY : list float;
  accelZ : list float;
  gyroX : list float;
  gyroY : list float;
  gyroZ : list float;
  sampling : bool;
  sampleIndex : Z;
  (** everything written to [Serial] so far *)
  serialOut : string
}.

Inductive Outcome (A : Type) :=
  | Done (a : A) (st : State)
  | OutOfBounds
  | Hang.
Global Arguments Done {A} a st.
Global Arguments OutOfBounds {A}.
Global Arguments Hang {A}.

Definition M (A : Type) : Type := State -> Outcome A.

Definition ret {A} (a : A) : M A := fun st => Done a st.

Definition bind {A B} (m : M A) (k : A -> M B) : M B :=
  fun st =>
    match m st with
    | Done a st' => k a st'
    | OutOfBounds => OutOfBounds
    | Hang => Hang
    end.

Global Instance M_ret : MRet M := @ret.
Global Instance M_bind : MBind M := fun A B k m => bind m k.

(** *** Globals *)

Definition with_sampling (b : bool) (st : State) : State :=
  mkState (accelX st) (accelY st) (accelZ st) (gyroX st) (gyroY st) (gyroZ st)
          b (sampleIndex st) (serialOut st).

Definition with_sampleIndex (i : Z) (st : State) : State :=
  mkState (accelX st) (accelY st) (accelZ st) (gyroX st) (gyroY st) (gyroZ st)
          (sampling st) i (serialOut st).

(** The state after [s] went out on the serial line. *)
Definition emit (s : string) (st : State) : State :=
  mkState (accelX st) (accelY st) (accelZ st) (gyroX st) (gyroY st) (gyroZ st)
          (sampling st) (sampleIndex st) (serialOut st +:+ s).

Definition get_sampling : M bool := fun st => Done (sampling st) st.
Definition get_sampleIndex : M Z := fun st => Done (sampleIndex st) st.
Definition set_sampling (b : bool) : M unit := fun st => Done tt (with_sampling b st).
Definition set_sampleIndex (i : Z) : M unit := fun st => Done tt (with_sampleIndex i st).

Definition channel (c : Channel) (st : State) : list float :=
  match c with
  | AccelX => accelX st | AccelY => accelY st | AccelZ => accelZ st
  | GyroX => gyroX st | GyroY => gyroY st | GyroZ => gyroZ st
  end.

Definition with_channel (c : Channel) (a : list float) (st : State) : State :=
  match c with
  | AccelX => mkState a (accelY st) (accelZ st) (gyroX st) (gyroY st) (gyroZ st)
                      (sampling st) (sampleIndex st) (serialOut st)
  | AccelY => mkState (accelX st) a (accelZ st) (gyroX st) (gyroY st) (gyroZ st)
                      (sampling st) (sampleIndex st) (serialOut st)
  | AccelZ => mkState (accelX st) (accelY st) a (gyroX st) (gyroY st) (gyroZ st)
                      (sampling st) (sampleIndex st) (serialOut st)
  | GyroX => mkState (accelX st) (accelY st) (accelZ st) a (gyroY st) (gyroZ st)
                     (sampling st) (sampleIndex st) (serialOut st)
  | GyroY => mkState (accelX st) (accelY st) (accelZ st) (gyroX st) a (gyroZ st)
                     (sampling st) (sampleIndex st) (serialOut st)
  | GyroZ => mkState (accelX st) (accelY st) (accelZ st) (gyroX st) (gyroY st) a
                     (sampling st) (sampleIndex st) (serialOut st)
  end.

Definition in_bounds (a : list float) (i : Z) : bool :=
  (0 <=? i) && (i <? Z.of_nat (length a)).

(** [c[i]] as an rvalue. *)
Definition load (c : Channel) (i : Z) : M float := fun st =>
  if in_bounds (channel c st) i then
    match channel c st !! Z.to_nat i with
    | Some x => Done x st
    | None => OutOfBounds
    end
  else OutOfBounds.

(** [c[i] = x]. *)
Definition store (c : Channel) (i : Z) (x : float) : M unit := fun st =>
  if in_bounds (channel c st) i then
    Done tt (with_channel c (<[Z.to_nat i := x]> (channel c st)) st)
  else OutOfBounds.

(** *** Serial output *)

Definition Serial_print (s : string) : M unit := fun st => Done tt (emit s st).

Definition Serial_println (s : string) : M unit := Serial_print (s +:+ CRLF).

Definition Serial_print_float (x : float) (digits : nat) : M unit :=
  Serial_print (printFloat x digits).

Definition Serial_println_float (x : float) (digits : nat) : M unit :=
  Serial_println (printFloat x digits).

Definition Serial_println_int (i : Z) : M unit := Serial_println (pretty i).

Definition delay (ms : Z) : M unit := mret tt.

Definition hang : M unit := fun _ => Hang.

(** *** The sketch *)

(** Static storage before [setup] runs. *)
Definition power_on : State :=
  let a := replicate (Z.to_nat BUFFER_SIZE) zero in
  mkState a a a a a a false 0 EmptyString.

Definition setup (imu_begin : bool) : M unit :=
  (if negb imu_begin then
     Serial_println "Failed to initialize IMU!";; hang
   else mret tt);;
  set_sampling false;;
  Serial_println
    "Enter 'S' to Start/Stop sampling, 'D' to Download and 'X' to Exit program.".

Definition startSampling : M unit :=
  set_sampling true;;
  set_sampleIndex 0;;
  Serial_println "Starting sampling... Press Enter to stop.".

Definition stopSampling : M unit :=
  set_sampling false;;
  Serial_println "Stopping sampling...".

(** The body of the [for] loop of [downloadData], for one index. *)
Definition download_row (i : Z) : M unit :=
  x ← load AccelX i; Serial_print_float x 6;;
  Serial_print ";";;
  x ← load AccelY i; Serial_print_float x 6;;
  Serial_print ";";;
  x ← load AccelZ i; Serial_print_float x 6;;
  Serial_print ";";;
  x ← load GyroX i; Serial_print_float x 6;;
  Serial_print ";";;
  x ← load GyroY i; Serial_print_float x 6;;
  Serial_print ";";;
  x ← load GyroZ i; Serial_println_float x 6.

(** [for (; i < sampleIndex; i++) body]: the test is evaluated before every
    round; [fuel] bounds the number of rounds, and running out of it with
    the test still true is [Hang]. *)
Fixpoint download_from (fuel : nat) (i : Z) : M unit :=
  n ← get_sampleIndex;
  if i <? n then
    match fuel with
    | O => hang
    | S fuel' => download_row i;; download_from fuel' (wrap_int (i + 1))
    end
  else mret tt.

Definition downloadData : M unit :=
  n ← get_sampleIndex;
  download_from (Z.to_nat n) 0.

(** First block of [loop]: "Reads and processes incoming data". *)
Definition loop_command (ev : Event) : M unit :=
  match serial_line ev with
  | Some line =>
      let command := trim line in
      s ← get_sampling;
      if negb s then
        if equalsIgnoreCase command "S" then startSampling
        else if equalsIgnoreCase command "D" then downloadData
        else if equalsIgnoreCase command "X" then stopSampling
        else mret tt
      else
        if equals command EmptyString then stopSampling
        else Serial_println "Invalid command. Press Enter to stop."
  | None => mret tt
  end.

(** Second block of [loop]: "Data Acquisition". *)
Definition loop_acquisition (ev : Event) : M unit :=
  s ← get_sampling;
  i ← get_sampleIndex;
  if s && (i <? BUFFER_SIZE) then
    if accelerationAvailable (imu ev) && gyroscopeAvailable (imu ev) then
      let '(ax, ay, az) := readAcceleration (imu ev) in
      let '(gx, gy, gz) := readGyroscope (imu ev) in
      i ← get_sampleIndex; store AccelX i ax;;
      i ← get_sampleIndex; store AccelY i ay;;
      i ← get_sampleIndex; store AccelZ i az;;
      i ← get_sampleIndex; store GyroX i gx;;
      i ← get_sampleIndex; store GyroY i gy;;
      i ← get_sampleIndex; store GyroZ i gz;;
      i ← get_sampleIndex; set_sampleIndex (wrap_int (i + 1));;
      delay (1000 / SAMPLE_RATE)
    else
      Serial_println "Sample failed";;
      i ← get_sampleIndex; Serial_println_int i
  else mret tt.

Definition loop (ev : Event) : M unit :=
  loop_command ev;; loop_acquisition ev.

(** The Arduino runtime: [loop] once per event. *)
Fixpoint run (evs : list Event) : M unit :=
  match evs with
  | [] => mret tt
  | ev :: evs' => loop ev;; run evs'
  end.

End Firmware.

(** ** Vocabulary of the properties *)

Section Vocabulary.
Context {P : Platform}.

(** One sample: the acceleration triple and the angular-rate triple. *)
Definition Sample : Type := triple * triple.

Definition triples (a b c : list float) : list triple :=
  zip_with (fun p z => (p.1, p.2, z)) (zip a b) c.

(** The six channel arrays read row by row. *)
Definition rows (st : State) : list Sample :=
  zip (triples (accelX st) (accelY st) (accelZ st))
      (triples (gyroX st) (gyroY st) (gyroZ st)).

(** The buffer: the rows below the write index. *)
Definition samples (st : State) : list Sample :=
  take (Z.to_nat (sampleIndex st)) (rows st).

(** The six values of a sample in the order of the download line. *)
Definition channels_of (r : Sample) : list float :=
  let '((ax, ay, az), (gx, gy, gz)) := r in [ax; ay; az; gx; gy; gz].

Definition fields_of (r : Sample) : list string :=
  map (fun x => printFloat x 6) (channels_of r).

Definition format_row (r : Sample) : string :=
  String.concat ";" (fields_of r) +:+ CRLF.

Definition text_of (lines : list string) : string :=
  foldr String.append EmptyString lines.

(** Every channel has its declared size and the write index is within it. *)
Definition sized (st : State) : Prop :=
  forall c, length (channel c st) = Z.to_nat BUFFER_SIZE.

Definition wf (st : State) : Prop :=
  sized st /\ 0 <= sampleIndex st <= BUFFER_SIZE.

(** The two states of the acquisition machine, as [sampling] encodes them. *)
Definition acq_state (st : State) : AcqState :=
  if sampling st then Sampling else Idle.

(** The state [setup] hands to the first [loop]. *)
Definition booted : State :=
  emit ("Enter 'S' to Start/Stop sampling, 'D' to Download and 'X' to Exit program."
        +:+ CRLF)
       (with_sampling false power_on).

(** Power-on, a successful [setup], then [loop] once per event. *)
Definition boot (evs : list Event) : Outcome unit :=
  (setup true;; run evs) power_on.

(** The state a run ended in ([booted] if it did not end). *)
Definition state_after (o : Outcome unit) : State :=
  match o with
  | Done _ st => st
  | _ => booted
  end.

(** States the board can be in after [setup] succeeded and [loop] ran some
    number of times. *)
Definition Reachable (st : State) : Prop :=
  exists evs, boot evs = Done tt st.

(** A sensor with both data-ready flags set, holding [r]; and one with
    nothing new. *)
Definition ready (r : Sample) : IMU := mkIMU true true r.1 r.2.
Definition idle : IMU := mkIMU false false (zero, zero, zero) (zero, zero, zero).

Definition both_available (s : IMU) : bool :=
  accelerationAvailable s && gyroscopeAvailable s.

Definition reading (s : IMU) : Sample := (readAcceleration s, readGyroscope s).

(** A line was read and, trimmed, it is [t]. *)
Definition says (t : string) (line : option string) : Prop :=
  exists l, line = Some l /\ trim l = t.

(** The lines on which the handler calls [startSampling] in Idle: S, s,
    and the line that is the single byte 0. *)
Definition starts_session (line : option string) : Prop :=
  exists l, line = Some l /\
    (trim l = "S" \/ trim l = "s" \/ trim l = String NUL EmptyString).

(** The lines on which the handler calls [stopSampling] in Sampling: the
    line that is empty after trimming, and every line that then begins with
    the byte 0. *)
Definition stops_session (line : option string) : Prop :=
  exists l, line = Some l /\
    (trim l = EmptyString \/ exists rest, trim l = String NUL rest).

(** The lines that ask for a download. *)
Definition download_line (line : option string) : Prop :=
  exists l, line = Some l /\ (trim l = "D" \/ trim l = "d").

(** The state after one sample was stored at the write index. *)
Definition push_sample (r : Sample) (st : State) : State :=
  let '((ax, ay, az), (gx, gy, gz)) := r in
  let i := Z.to_nat (sampleIndex st) in
  mkState (<[i := ax]> (accelX st)) (<[i := ay]> (accelY st))
          (<[i := az]> (accelZ st)) (<[i := gx]> (gyroX st))
          (<[i := gy]> (gyroY st)) (<[i := gz]> (gyroZ st))
          (sampling st) (sampleIndex st + 1) (serialOut st).

(** What [startSampling] and [stopSampling] leave behind. *)
Definition started (st : State) : State :=
  emit ("Starting sampling... Press Enter to stop." +:+ CRLF)
       (with_sampleIndex 0 (with_sampling true st)).

Definition stopped (st : State) : State :=
  emit ("Stopping sampling..." +:+ CRLF) (with_sampling false st).

(** The text [downloadData] writes for the buffer of [st]. *)
Definition download_text (st : State) : string :=
  text_of (map format_row (samples st)).

(** The first block of [loop] as a relation between the state before and
    the state after, one rule per path through the block. *)
Inductive command_step (ev : Event) (st : State) : State -> Prop :=
  | cmd_none :
      serial_line ev = None -> command_step ev st st
  | cmd_start l :
      serial_line ev = Some l -> sampling st = false ->
      equalsIgnoreCase (trim l) "S" = true ->
      command_step ev st (started st)
  | cmd_download l :
      serial_line ev = Some l -> sampling st = false ->
      equalsIgnoreCase (trim l) "S" = false ->
      equalsIgnoreCase (trim l) "D" = true ->
      command_step ev st (emit (download_text st) st)
  | cmd_exit l :
      serial_line ev = Some l -> sampling st = false ->
      equalsIgnoreCase (trim l) "S" = false ->
      equalsIgnoreCase (trim l) "D" = false ->
      equalsIgnoreCase (trim l) "X" = true ->
      command_step ev st (stopped st)
  | cmd_ignored l :
      serial_line ev = Some l -> sampling st = false ->
      equalsIgnoreCase (trim l) "S" = false ->
      equalsIgnoreCase (trim l) "D" = false ->
      equalsIgnoreCase (trim l) "X" = false ->
      command_step ev st st
  | cmd_stop l :
      serial_line ev = Some l -> sampling st = true ->
      equals (trim l) EmptyString = true ->
      command_step ev st (stopped st)
  | cmd_invalid l :
      serial_line ev = Some l -> sampling st = true ->
      equals (trim l) EmptyString = false ->
      command_step ev st (emit ("Invalid command. Press Enter to stop." +:+ CRLF) st).

(** The second block of [loop], likewise. *)
Inductive acquisition_step (ev : Event) (st : State) : State -> Prop :=
  | acq_off :
      sampling st = false -> acquisition_step ev st st
  | acq_full :
      sampling st = true -> BUFFER_SIZE <= sampleIndex st ->
      acquisition_step ev st st
  | acq_sample :
      sampling st = true -> sampleIndex st < BUFFER_SIZE ->
      both_available (imu ev) = true ->
      acquisition_step ev st (push_sample (reading (imu ev)) st)
  | acq_failed :
      sampling st = true -> sampleIndex st < BUFFER_SIZE ->
      both_available (imu ev) = false ->
      acquisition_step ev st
        (emit ("Sample failed" +:+ CRLF +:+ pretty (sampleIndex st) +:+ CRLF) st).

(** The events of a session that is started with [S] while the sensor
    delivers the readings [rs], one per iteration: the iteration that reads
    the command already takes the first reading. *)
Definition start_and_feed (rs : list Sample) : list Event :=
  match rs with
  | [] => [mkEvent (Some "S") idle]
  | r :: rs' =>
      mkEvent (Some "S") (ready r) :: map (fun r' => mkEvent None (ready r')) rs'
  end.

End Vocabulary.

(** Characters that end a field or a line of the download format. *)
Definition delimiter (c : ascii) : bool :=
  bool_decide (c = ";"%char) || bool_decide (c = ascii_of_nat 13)
  || bool_decide (c = ascii_of_nat 10).

Fixpoint plain (s : string) : bool :=
  match s with
  | EmptyString => true
  | String c s' => negb (delimiter c) && plain s'
  end.

(** [s] cut at every occurrence of [sep]. *)
Fixpoint split_on (sep : ascii) (s : string) : list string :=
  match s with
  | EmptyString => [EmptyString]
  | String c s' =>
      if bool_decide (c = sep) then EmptyString :: split_on sep s'
      else match split_on sep s' with
           | [] => [String c EmptyString]
           | f :: fs => String c f :: fs
           end
  end.

Fixpoint count_char (c : ascii) (s : string) : nat :=
  match s with
  | EmptyString => O
  | String x s' => (if bool_decide (x = c) then 1 else 0)%nat + count_char c s'
  end.

(** ** A platform for concrete runs

    Values are integers counting millionths; the printer follows the core's
    [printFloat]: sign, integer part, point, then one digit at a time. *)

Definition digit_char (k : Z) : ascii :=
  match k with
  | 0 => "0" | 1 => "1" | 2 => "2" | 3 => "3" | 4 => "4"
  | 5 => "5" | 6 => "6" | 7 => "7" | 8 => "8" | _ => "9"
  end%char.

Fixpoint int_digits (fuel : nat) (k : Z) (acc : string) : string :=
  match fuel with
  | O => String (digit_char k) acc
  | S fuel' =>
      if k <? 10 then String (digit_char k) acc
      else int_digits fuel' (k / 10) (String (digit_char (k mod 10)) acc)
  end.

Fixpoint frac_digits (digits : nat) (r : Z) : string :=
  match digits with
  | O => EmptyString
  | S d => String (digit_char (r * 10 / 1000000)) (frac_digits d (r * 10 mod 1000000))
  end.

Definition print_millionths (z : Z) (digits : nat) : string :=
  let a := Z.abs z in
  (if z <? 0 then "-" else EmptyString)
  +:+ int_digits (Z.to_nat (Z.log2 (a / 1000000))) (a / 1000000) EmptyString
  +:+ (match digits with O => EmptyString | _ => "." end)
  +:+ frac_digits digits (a mod 1000000).

Definition synthetic : Platform :=
  {| float := Z; zero := 0; printFloat := print_millionths |}.

(** Two readings in the style of the data set (g and degrees per second). *)
Definition reading_a : @Sample synthetic :=
  ((-237061, -19043, 928101), (3173828, -244141, 2258301)).
Definition reading_b : @Sample synthetic :=
  ((-245972, -14648, 925659), (2990723, -1037598, 2746582)).

(** An iteration with the sensor ready (holding [reading_b]), and one with
    the sensor idle. *)
Definition offer (line : option string) : @Event synthetic :=
  mkEvent line (ready reading_b).
Definition quiet (line : option string) : @Event synthetic :=
  mkEvent line idle.

Definition short_session : list (@Sample synthetic) := [reading_a; reading_b].
Definition full_session : list (@Sample synthetic) := replicate 3000 reading_a.

(** Sampling with two samples stored; the same session stopped; a session
    that filled the buffer. *)
Definition demo_sampling : @State synthetic :=
  state_after (boot (start_and_feed short_session)).
Definition demo_stopped : @State synthetic :=
  state_after (boot (start_and_feed short_session ++ [quiet (Some EmptyString)])).
Definition demo_full : @State synthetic :=
  state_after (boot (start_and_feed full_session)).

(** ** Vocabulary of whole sessions *)

Section SessionVocabulary.
Context {P : Platform}.

(** The readings of those iterations in which both data-ready flags were
    set, in order. *)
Fixpoint ready_readings (evs : list Event) : list Sample :=
  match evs with
  | [] => []
  | ev :: evs' =>
      if both_available (imu ev) then reading (imu ev) :: ready_readings evs'
      else ready_readings evs'
  end.

(** The capacity of the buffer as a number of rows. *)
Definition capacity : nat := Z.to_nat BUFFER_SIZE.

End SessionVocabulary.

(** A line made of white space only (the empty line included). *)
Fixpoint all_space (s : string) : bool :=
  match s with
  | EmptyString => true
  | String c s' => isspace c && all_space s'
  end.

(** ** The metadata step of [filtering/AddFilter.m] (lines 18 to 32)

    [AddFilter] reads the first [startRow - 1] lines of the sample file with
    [fgetl], rewrites the filter flag in the twelfth, derives the name of
    the filtered file and rewrites the name recorded in the seventh.  The
    numeric part of the function (reading the table, the Butterworth filter,
    the plots) works on floating-point matrices and is not modelled. *)

Fixpoint starts_with (pat s : string) : bool :=
  match pat, s with
  | EmptyString, _ => true
  | String a pat', String c s' => bool_decide (a = c) && starts_with pat' s'
  | String _ _, EmptyString => false
  end.

(** [pat] occurs somewhere in [s]. *)
Fixpoint occurs (pat s : string) : bool :=
  starts_with pat s
  || match s with
     | EmptyString => false
     | String _ s' => occurs pat s'
     end.

(** MATLAB [regexprep(str, pat, rep)] for a non-empty expression without
    metacharacters and a replacement without tokens, which is what the
    three calls in [AddFilter] pass: every match, found from left to right
    without overlap, is replaced.  [skip] counts the characters of a match
    still to be passed over. *)
Fixpoint regexprep_from (skip : nat) (str pat rep : string) : string :=
  match str with
  | EmptyString => EmptyString
  | String c str' =>
      match skip with
      | S k => regexprep_from k str' pat rep
      | O =>
          if starts_with pat str
          then rep +:+ regexprep_from (String.length pat - 1) str' pat rep
          else String c (regexprep_from 0 str' pat rep)
      end
  end.

Definition regexprep (str pat rep : string) : string :=
  regexprep_from 0 str pat rep.

Definition startRow : nat := 18.

(** The [fgetl] loop: cell [i] holds line [i] of the file, or nothing
    ([fgetl] returns the number -1) once the file has ended. *)
Definition read_header (file : list string) : list (option string) :=
  map (fun i => file !! i) (seq 0 (startRow - 1)).

(** [Header{i}] where a character vector is required: cells are counted
    from 1, and the text functions raise an error on a cell holding -1. *)
Definition cell_text (Header : list (option string)) (i : nat) : option string :=
  mjoin (Header !! (i - 1)%nat).

(** Lines 18 to 32: the new file name and the rewritten header, or nothing
    when [regexprep] raised an error. *)
Definition AddFilter_header (FileName : string) (file : list string)
  : option (string * list (option string)) :=
  let Header := read_header file in
  h12 ← cell_text Header 12;
  let Header := <[11%nat := Some (regexprep h12 "No" "Yes")]> Header in
  let NewFileName := regexprep FileName "p0" "p1" in
  h7 ← cell_text Header 7;
  let Header := <[6%nat := Some (regexprep h7 "p0" "p1")]> Header in
  Some (NewFileName, Header).

(** *** Inputs for concrete runs of the added properties *)

(** A line that is the single byte 0, and one that begins with it. *)
Definition nul_line : string := String NUL EmptyString.
Definition nul_led_line : string := String NUL "D".

(** An iteration without a command in which only the accelerometer has
    new data. *)
Definition half_ready : @Event synthetic :=
  mkEvent None (mkIMU true false reading_a.1 reading_a.2).

(** A sample file laid out as [AddFilter] expects it: the file name on
    line 7, the filter flag on line 12, data from line [startRow] on. *)
Definition raw_name : string := "A_s01v01n0001p0a0f0.csv".

Definition raw_file : list string :=
  [ "AirChar - The in-the-Air Handwritten Dataset";
    "for Character Recognition Based on Acceleration (IMU) Data";
    EmptyString;
    "IMU: LSM9DS1";
    "Sampling Frequency: 100Hz";
    EmptyString;
    "FileName: A_s01v01n0001p0a0f0.csv";
    "Character: A";
    "Subject: 01";
    "Version: 01";
    "Sample Number: 0001";
    "Preprocessing Filter: No";
    "Augmentation: No";
    "Features: No";
    "Format: csv";
    EmptyString;
    "Label;accX;accY;accZ;gyrX;gyrY;gyrZ";
    "65;-0.237061;-0.019043;0.928101;3.173828;-0.244141;2.258301";
    "65;-0.245972;-0.014648;0.925659;2.990723;-1.037598;2.746582" ].

(** ** Properties *)

Section Properties.
Context {P : Platform}.

Lemma append_cons x (a b : string) : String x a +:+ b = String x (a +:+ b).
Proof. reflexivity. Qed.

Lemma append_nil_l (b : string) : EmptyString +:+ b = b.
Proof. reflexivity. Qed.

Lemma append_assoc (a b c : string) : (a +:+ b) +:+ c = a +:+ b +:+ c.
Proof. induction a as [|x a IH]; [done|]. rewrite !append_cons. by f_equal. Qed.

Lemma append_nil_r (a : string) : a +:+ EmptyString = a.
Proof. induction a as [|x a IH]; [done|]. rewrite append_cons. by f_equal. Qed.



Lemma BUFFER_SIZE_eq : BUFFER_SIZE = 3000.
Proof. reflexivity. Qed.

Lemma wrap_int_id z : - 2 ^ 31 <= z < 2 ^ 31 -> wrap_int z = z.
Proof. intros Hz. unfold wrap_int. rewrite Z.mod_small; lia. Qed.

Lemma in_bounds_sized st c i :
  sized st -> 0 <= i < BUFFER_SIZE -> in_bounds (channel c st) i = true.
Proof.
  intros Hs Hi. unfold in_bounds. rewrite (Hs c).
  apply andb_true_intro; split; [apply Z.leb_le | apply Z.ltb_lt]; lia.
Qed.

Ltac munfold :=
  unfold mbind, M_bind, bind, mret, M_ret, ret, get_sampling, get_sampleIndex,
    set_sampling, set_sampleIndex, with_sampling, with_sampleIndex, Serial_println_float, Serial_print_float,
    Serial_println_int, Serial_println, Serial_print, delay, hang.

Lemma loop_acquisition_ready st ev :
  sized st -> sampling st = true -> 0 <= sampleIndex st < BUFFER_SIZE ->
  both_available (imu ev) = true ->
  loop_acquisition ev st = Done tt (push_sample (reading (imu ev)) st).
Proof.
  intros Hs Hon Hi Hav. unfold both_available in Hav.
  pose proof (fun c => in_bounds_sized st c _ Hs Hi) as Hb.
  unfold loop_acquisition, reading, push_sample.
  destruct (readAcceleration (imu ev)) as [[ax ay] az].
  destruct (readGyroscope (imu ev)) as [[gx gy] gz].
  assert (Hlt : (sampleIndex st <? BUFFER_SIZE) = true) by (apply Z.ltb_lt; lia).
  pose proof (Hb AccelX) as H1. pose proof (Hb AccelY) as H2.
  pose proof (Hb AccelZ) as H3. pose proof (Hb GyroX) as H4.
  pose proof (Hb GyroY) as H5. pose proof (Hb GyroZ) as H6.
  destruct st; cbn in *. subst.
  munfold. cbn. rewrite Hlt, Hav. cbn.
  unfold store; cbn. rewrite H1; cbn. rewrite H2; cbn. rewrite H3; cbn.
  rewrite H4; cbn. rewrite H5; cbn. rewrite H6; cbn.
  rewrite wrap_int_id; [done|]. rewrite BUFFER_SIZE_eq in Hi. lia.
Qed.

Lemma emit_emit a b st : emit b (emit a st) = emit (a +:+ b) st.
Proof. unfold emit; cbn. by rewrite append_assoc. Qed.

Lemma emit_nil st : emit EmptyString st = st.
Proof. destruct st; unfold emit; cbn. by rewrite append_nil_r. Qed.

Lemma rows_emit s st : rows (emit s st) = rows st.
Proof. reflexivity. Qed.

Lemma sampleIndex_emit s st : sampleIndex (emit s st) = sampleIndex st.
Proof. reflexivity. Qed.

Lemma sampling_emit s st : sampling (emit s st) = sampling st.
Proof. reflexivity. Qed.

Lemma samples_emit s st : samples (emit s st) = samples st.
Proof. reflexivity. Qed.

Lemma loop_acquisition_not_ready st ev :
  sampling st = true -> sampleIndex st < BUFFER_SIZE ->
  both_available (imu ev) = false ->
  loop_acquisition ev st =
  Done tt (emit ("Sample failed" +:+ CRLF +:+ pretty (sampleIndex st) +:+ CRLF) st).
Proof.
  intros Hon Hi Hav. unfold both_available in Hav.
  assert (Hlt : (sampleIndex st <? BUFFER_SIZE) = true) by (apply Z.ltb_lt; lia).
  unfold loop_acquisition. munfold. cbn.
  rewrite Hon, Hlt, Hav. cbn. by rewrite emit_emit, !append_assoc.
Qed.

Lemma loop_acquisition_off st ev :
  sampling st = false -> loop_acquisition ev st = Done tt st.
Proof. intros Hoff. unfold loop_acquisition. munfold. cbn. by rewrite Hoff. Qed.

Lemma loop_acquisition_full st ev :
  BUFFER_SIZE <= sampleIndex st -> loop_acquisition ev st = Done tt st.
Proof.
  intros Hfull. unfold loop_acquisition. munfold. cbn.
  assert (Hlt : (sampleIndex st <? BUFFER_SIZE) = false) by (apply Z.ltb_ge; lia).
  rewrite Hlt. by destruct (sampling st).
Qed.

Lemma triples_lookup (a b c : list float) i x y z :
  triples a b c !! i = Some (x, y, z) <->
  a !! i = Some x /\ b !! i = Some y /\ c !! i = Some z.
Proof.
  unfold triples. split.
  - intros ([x' y'] & z' & Heq & Hxy & Hz)%lookup_zip_with_Some. cbn in Heq.
    apply lookup_zip_with_Some in Hxy as (x'' & y'' & Hp & Hx & Hy).
    simplify_eq. done.
  - intros (Hx & Hy & Hz). apply lookup_zip_with_Some.
    exists (x, y), z. split; [done|]. split; [|done].
    apply lookup_zip_with_Some. by exists x, y.
Qed.

Lemma rows_lookup st i ax ay az gx gy gz :
  rows st !! i = Some ((ax, ay, az), (gx, gy, gz)) <->
  accelX st !! i = Some ax /\ accelY st !! i = Some ay /\
  accelZ st !! i = Some az /\ gyroX st !! i = Some gx /\
  gyroY st !! i = Some gy /\ gyroZ st !! i = Some gz.
Proof.
  unfold rows. split.
  - intros (a & g & Heq & Ha & Hg)%lookup_zip_with_Some. simplify_eq.
    apply triples_lookup in Ha. apply triples_lookup in Hg. tauto.
  - intros (H1 & H2 & H3 & H4 & H5 & H6). apply lookup_zip_with_Some.
    exists (ax, ay, az), (gx, gy, gz). split; [done|].
    split; apply triples_lookup; done.
Qed.

Lemma length_triples (a b c : list float) n :
  length a = n -> length b = n -> length c = n -> length (triples a b c) = n.
Proof.
  intros Ha Hb Hc. unfold triples. rewrite !length_zip_with. lia.
Qed.

Lemma length_rows st : sized st -> length (rows st) = Z.to_nat BUFFER_SIZE.
Proof.
  intros Hs. unfold rows. rewrite length_zip_with.
  rewrite (length_triples _ _ _ (Z.to_nat BUFFER_SIZE));
    [|apply (Hs AccelX)|apply (Hs AccelY)|apply (Hs AccelZ)].
  rewrite (length_triples _ _ _ (Z.to_nat BUFFER_SIZE));
    [|apply (Hs GyroX)|apply (Hs GyroY)|apply (Hs GyroZ)].
  lia.
Qed.

Lemma load_eq c i x st :
  0 <= i -> channel c st !! Z.to_nat i = Some x -> load c i st = Done x st.
Proof.
  intros Hi Hx. unfold load, in_bounds. rewrite Hx.
  apply lookup_lt_Some in Hx.
  replace (0 <=? i) with true by (symmetry; apply Z.leb_le; lia).
  replace (i <? Z.of_nat (length (channel c st))) with true
    by (symmetry; apply Z.ltb_lt; lia).
  done.
Qed.

Lemma download_row_eq i r st :
  0 <= i -> rows st !! Z.to_nat i = Some r ->
  download_row i st = Done tt (emit (format_row r) st).
Proof.
  intros Hi Hr. destruct r as [[[ax ay] az] [[gx gy] gz]].
  apply rows_lookup in Hr as (H1 & H2 & H3 & H4 & H5 & H6).
  unfold download_row. munfold.
  rewrite (load_eq AccelX i ax) by done. cbn.
  rewrite (load_eq AccelY i ay) by done. cbn.
  rewrite (load_eq AccelZ i az) by done. cbn.
  rewrite (load_eq GyroX i gx) by done. cbn.
  rewrite (load_eq GyroY i gy) by done. cbn.
  rewrite (load_eq GyroZ i gz) by done. cbn.
  rewrite !emit_emit. unfold format_row, fields_of. cbn. by rewrite !append_assoc.
Qed.

Lemma download_from_eq fuel : forall i st,
  0 <= i -> Z.of_nat fuel + i = sampleIndex st ->
  sampleIndex st <= Z.of_nat (length (rows st)) -> sampleIndex st < 2 ^ 31 ->
  download_from fuel i st =
  Done tt (emit (text_of (map format_row (take fuel (drop (Z.to_nat i) (rows st))))) st).
Proof.
  induction fuel as [|fuel IH]; intros i st Hi Hsum Hlen Hmax.
  - cbn. munfold.
    replace (i <? sampleIndex st) with false by (symmetry; apply Z.ltb_ge; lia).
    by rewrite emit_nil.
  - cbn [download_from]. munfold.
    replace (i <? sampleIndex st) with true by (symmetry; apply Z.ltb_lt; lia).
    destruct (lookup_lt_is_Some_2 (rows st) (Z.to_nat i)) as [r Hr]; [lia|].
    rewrite (download_row_eq i r st Hi Hr).
    rewrite wrap_int_id by lia.
    rewrite IH; rewrite ?rows_emit, ?sampleIndex_emit; try lia.
    rewrite emit_emit. do 2 f_equal.
    rewrite (drop_S _ _ _ Hr). cbn.
    replace (Z.to_nat (i + 1)) with (S (Z.to_nat i)) by lia. done.
Qed.

Lemma downloadData_eq st :
  wf st -> downloadData st = Done tt (emit (text_of (map format_row (samples st))) st).
Proof.
  intros [Hs Hi]. unfold downloadData. munfold.
  rewrite download_from_eq; try lia.
  - by rewrite drop_0.
  - rewrite length_rows by done. lia.
  - rewrite BUFFER_SIZE_eq in Hi. lia.
Qed.


(** Tokens *)

Lemma equals_empty s :
  equals s EmptyString = true <->
  s = EmptyString \/ exists rest, s = String NUL rest.
Proof.
  unfold equals. rewrite bool_decide_eq_true.
  destruct s as [|c s]; cbn [c_str].
  - split; [by left|done].
  - destruct (bool_decide_reflect (c = NUL)) as [->|Hc].
    + split; [intros _; right; by exists s|done].
    + split; [done|]. intros [H|(rest & H)]; [done|congruence].
Qed.

Lemma equalsIgnoreCase_letter s c :
  equalsIgnoreCase s (String c EmptyString) = true <->
  exists x, s = String x EmptyString /\ (x = NUL \/ tolower x = tolower c).
Proof.
  unfold equalsIgnoreCase. destruct s as [|x [|y s]]; cbn.
  - split; [done | by intros (? & ? & ?)].
  - destruct (bool_decide_reflect (x = NUL)) as [->|Hx].
    + split; [intros _; eexists; split; [done|by left] | done].
    + rewrite andb_true_r, bool_decide_eq_true. split.
      * intros H. exists x. split; [done|by right].
      * by intros (x' & [= <-] & [?|?]).
  - split; [done | by intros (? & [=] & _)].
Qed.

Ltac by_ascii_cases x :=
  destruct x as [[] [] [] [] [] [] [] []]; vm_compute;
  (split; [intros H; try discriminate H; auto
          | intros [H|H]; try discriminate H; reflexivity]).

Lemma tolower_S x : tolower x = tolower "S" <-> x = "S"%char \/ x = "s"%char.
Proof. by_ascii_cases x. Qed.

Lemma tolower_D x : tolower x = tolower "D" <-> x = "D"%char \/ x = "d"%char.
Proof. by_ascii_cases x. Qed.

Lemma tolower_X x : tolower x = tolower "X" <-> x = "X"%char \/ x = "x"%char.
Proof. by_ascii_cases x. Qed.

Lemma equalsIgnoreCase_S s :
  equalsIgnoreCase s "S" = true <->
  s = "S" \/ s = "s" \/ s = String NUL EmptyString.
Proof.
  rewrite equalsIgnoreCase_letter. split.
  - intros (x & -> & [->|[->| ->]%tolower_S]); auto.
  - intros [->|[->| ->]]; eexists; (split; [done|]);
      first [by left | right; apply tolower_S; auto].
Qed.

Lemma equalsIgnoreCase_D s :
  equalsIgnoreCase s "D" = true <->
  s = "D" \/ s = "d" \/ s = String NUL EmptyString.
Proof.
  rewrite equalsIgnoreCase_letter. split.
  - intros (x & -> & [->|[->| ->]%tolower_D]); auto.
  - intros [->|[->| ->]]; eexists; (split; [done|]);
      first [by left | right; apply tolower_D; auto].
Qed.

Lemma equalsIgnoreCase_X s :
  equalsIgnoreCase s "X" = true <->
  s = "X" \/ s = "x" \/ s = String NUL EmptyString.
Proof.
  rewrite equalsIgnoreCase_letter. split.
  - intros (x & -> & [->|[->| ->]%tolower_X]); auto.
  - intros [->|[->| ->]]; eexists; (split; [done|]);
      first [by left | right; apply tolower_X; auto].
Qed.

(** The blocks of [loop] and their relations *)

Lemma startSampling_eq st : startSampling st = Done tt (started st).
Proof. reflexivity. Qed.

Lemma stopSampling_eq st : stopSampling st = Done tt (stopped st).
Proof. reflexivity. Qed.

Lemma loop_command_step ev st :
  wf st -> exists st1, loop_command ev st = Done tt st1 /\ command_step ev st st1.
Proof.
  intros Hwf. unfold loop_command.
  destruct (serial_line ev) as [l|] eqn:Hl; [|eexists; split; [done | by constructor]].
  munfold. cbn. destruct (sampling st) eqn:Hon; cbn.
  - destruct (equals (trim l) EmptyString) eqn:He.
    + eexists; split; [apply stopSampling_eq | by eapply cmd_stop].
    + eexists; split; [done | by eapply cmd_invalid].
  - destruct (equalsIgnoreCase (trim l) "S") eqn:HS.
    { eexists; split; [apply startSampling_eq | by eapply cmd_start]. }
    destruct (equalsIgnoreCase (trim l) "D") eqn:HD.
    { eexists; split; [by apply downloadData_eq | by eapply cmd_download]. }
    destruct (equalsIgnoreCase (trim l) "X") eqn:HX.
    { eexists; split; [apply stopSampling_eq | by eapply cmd_exit]. }
    eexists; split; [done | by eapply cmd_ignored].
Qed.

Lemma loop_acquisition_step ev st :
  wf st -> exists st', loop_acquisition ev st = Done tt st' /\ acquisition_step ev st st'.
Proof.
  intros [Hs Hi]. destruct (sampling st) eqn:Hon.
  - destruct (Z.lt_ge_cases (sampleIndex st) BUFFER_SIZE) as [Hlt|Hge].
    + destruct (both_available (imu ev)) eqn:Hav.
      * eexists; split; [apply loop_acquisition_ready; (done || lia)|by constructor].
      * eexists; split; [by apply loop_acquisition_not_ready|by constructor].
    + eexists; split; [by apply loop_acquisition_full|by apply acq_full].
  - eexists; split; [by apply loop_acquisition_off|by constructor].
Qed.


(** The invariant *)

Lemma channel_emit c s st : channel c (emit s st) = channel c st.
Proof. by destruct c. Qed.

Lemma channel_with_sampling c b st : channel c (with_sampling b st) = channel c st.
Proof. by destruct c. Qed.

Lemma channel_with_sampleIndex c i st :
  channel c (with_sampleIndex i st) = channel c st.
Proof. by destruct c. Qed.

Lemma channel_started c st : channel c (started st) = channel c st.
Proof. by destruct c. Qed.

Lemma channel_stopped c st : channel c (stopped st) = channel c st.
Proof. by destruct c. Qed.

Lemma wf_emit s st : wf st -> wf (emit s st).
Proof. intros [Hs Hi]. split; [|done]. intros c. rewrite channel_emit. apply Hs. Qed.

Lemma wf_started st : wf st -> wf (started st).
Proof.
  intros [Hs Hi]. split.
  - intros c. rewrite channel_started. apply Hs.
  - cbn. rewrite BUFFER_SIZE_eq. lia.
Qed.

Lemma wf_stopped st : wf st -> wf (stopped st).
Proof. intros [Hs Hi]. split; [|done]. intros c. rewrite channel_stopped. apply Hs. Qed.

Lemma wf_push_sample r st :
  wf st -> sampleIndex st < BUFFER_SIZE -> wf (push_sample r st).
Proof.
  intros [Hs Hi] Hlt. destruct r as [[[ax ay] az] [[gx gy] gz]]. split.
  - intros c. specialize (Hs c).
    destruct c; cbn in *; by rewrite length_insert.
  - cbn. lia.
Qed.

Lemma command_step_wf ev st st1 : wf st -> command_step ev st st1 -> wf st1.
Proof.
  intros Hwf Hstep.
  destruct Hstep; auto using wf_emit, wf_started, wf_stopped.
Qed.

Lemma acquisition_step_wf ev st st' : wf st -> acquisition_step ev st st' -> wf st'.
Proof.
  intros Hwf Hstep.
  destruct Hstep; auto using wf_emit, wf_push_sample.
Qed.

Lemma loop_eq ev st :
  loop ev st =
  match loop_command ev st with
  | Done _ st1 => loop_acquisition ev st1
  | OutOfBounds => OutOfBounds
  | Hang => Hang
  end.
Proof. reflexivity. Qed.

Lemma loop_step ev st :
  wf st ->
  exists st1 st',
    loop ev st = Done tt st' /\ loop_command ev st = Done tt st1 /\
    command_step ev st st1 /\ acquisition_step ev st1 st' /\ wf st'.
Proof.
  intros Hwf.
  destruct (loop_command_step ev st Hwf) as (st1 & Hc & Hcs).
  pose proof (command_step_wf _ _ _ Hwf Hcs) as Hwf1.
  destruct (loop_acquisition_step ev st1 Hwf1) as (st' & Ha & Has).
  exists st1, st'. rewrite loop_eq, Hc.
  do 4 (split; [done|]). by eapply acquisition_step_wf.
Qed.

Lemma run_cons ev evs st :
  run (ev :: evs) st =
  match loop ev st with
  | Done _ st1 => run evs st1
  | OutOfBounds => OutOfBounds
  | Hang => Hang
  end.
Proof. reflexivity. Qed.

Lemma run_app evs1 : forall evs2 st,
  run (evs1 ++ evs2) st =
  match run evs1 st with
  | Done _ st1 => run evs2 st1
  | OutOfBounds => OutOfBounds
  | Hang => Hang
  end.
Proof.
  induction evs1 as [|ev evs1 IH]; intros evs2 st; [done|].
  cbn [app]. rewrite !run_cons. destruct (loop ev st); auto.
Qed.

Lemma run_total evs : forall st,
  wf st -> exists st', run evs st = Done tt st' /\ wf st'.
Proof.
  induction evs as [|ev evs IH]; intros st Hwf; [by exists st|].
  destruct (loop_step ev st Hwf) as (st1 & st' & Hl & _ & _ & _ & Hwf').
  rewrite run_cons, Hl. by apply IH.
Qed.

Lemma boot_eq evs : boot evs = run evs booted.
Proof. reflexivity. Qed.

Lemma wf_power_on : wf power_on.
Proof.
  split; [|cbn; rewrite BUFFER_SIZE_eq; lia].
  intros c. destruct c; apply length_replicate.
Qed.

Lemma wf_booted : wf booted.
Proof.
  apply wf_emit. destruct wf_power_on as [Hs Hi]. split; [|done].
  intros c. rewrite channel_with_sampling. apply Hs.
Qed.

Lemma Reachable_wf st : Reachable st -> wf st.
Proof.
  intros [evs Hrun]. rewrite boot_eq in Hrun.
  destruct (run_total evs booted wf_booted) as (st' & Hrun' & Hwf).
  congruence.
Qed.

Lemma Reachable_booted : Reachable booted.
Proof. by exists []. Qed.

Lemma Reachable_run st evs st' :
  Reachable st -> run evs st = Done tt st' -> Reachable st'.
Proof.
  intros [evs0 Hrun] Hstep. exists (evs0 ++ evs).
  rewrite boot_eq in *. by rewrite run_app, Hrun.
Qed.

Lemma Reachable_loop st ev st' :
  Reachable st -> loop ev st = Done tt st' -> Reachable st'.
Proof.
  intros Hr Hl. apply (Reachable_run st [ev]); [done|].
  by rewrite run_cons, Hl.
Qed.


(** What the two blocks leave alone *)

Lemma sampling_push_sample r st : sampling (push_sample r st) = sampling st.
Proof. by destruct r as [[[ax ay] az] [[gx gy] gz]]. Qed.

Lemma serialOut_push_sample r st : serialOut (push_sample r st) = serialOut st.
Proof. by destruct r as [[[ax ay] az] [[gx gy] gz]]. Qed.

Lemma sampleIndex_push_sample r st :
  sampleIndex (push_sample r st) = sampleIndex st + 1.
Proof. by destruct r as [[[ax ay] az] [[gx gy] gz]]. Qed.

Lemma acquisition_step_sampling ev st st' :
  acquisition_step ev st st' -> sampling st' = sampling st.
Proof. destruct 1; auto using sampling_push_sample. Qed.

Lemma acquisition_step_index ev st st' :
  acquisition_step ev st st' -> sampleIndex st <= sampleIndex st'.
Proof. destruct 1; rewrite ?sampleIndex_push_sample; cbn; lia. Qed.

Lemma acquisition_step_idle ev st st' :
  acquisition_step ev st st' -> sampling st = false -> st' = st.
Proof. destruct 1; congruence. Qed.

Lemma acquisition_step_full ev st st' :
  acquisition_step ev st st' -> BUFFER_SIZE <= sampleIndex st -> st' = st.
Proof. destruct 1; (done || lia). Qed.

Lemma command_step_start ev st st1 :
  command_step ev st st1 -> sampling st = false -> sampling st1 = true ->
  starts_session (serial_line ev) /\ st1 = started st.
Proof.
  destruct 1 as [ |l Hl _ HS| | | | | ]; cbn; intros Hoff Hon; try congruence.
  split; [|done]. exists l. split; [done|]. by apply equalsIgnoreCase_S.
Qed.

Lemma command_step_stop ev st st1 :
  command_step ev st st1 -> sampling st = true -> sampling st1 = false ->
  stops_session (serial_line ev) /\ st1 = stopped st.
Proof.
  destruct 1 as [ | | | | |l Hl _ He| ]; cbn; intros Hon Hoff; try congruence.
  split; [|done]. exists l. split; [done|]. by apply equals_empty.
Qed.

Lemma stops_session_equals l :
  stops_session (Some l) <-> equals (trim l) EmptyString = true.
Proof.
  rewrite equals_empty. split.
  - by intros (l' & [= <-] & H).
  - intros H. by exists l.
Qed.

Lemma starts_session_equalsIgnoreCase l :
  starts_session (Some l) <-> equalsIgnoreCase (trim l) "S" = true.
Proof.
  rewrite equalsIgnoreCase_S. split.
  - by intros (l' & [= <-] & H).
  - intros H. by exists l.
Qed.

Lemma command_step_channel ev st st1 c :
  command_step ev st st1 -> channel c st1 = channel c st.
Proof.
  destruct 1; rewrite ?channel_emit, ?channel_started, ?channel_stopped; done.
Qed.

Lemma command_step_sampling_index ev st st1 :
  command_step ev st st1 -> sampling st = true -> sampleIndex st1 = sampleIndex st.
Proof. destruct 1; cbn; congruence. Qed.

Lemma acq_state_Idle st : acq_state st = Idle <-> sampling st = false.
Proof. unfold acq_state. by destruct (sampling st). Qed.

Lemma acq_state_Sampling st : acq_state st = Sampling <-> sampling st = true.
Proof. unfold acq_state. by destruct (sampling st). Qed.

(** Whatever commands and sensor events the main loop has processed, it
    can process the next one, and the machine is then in one of its two
    states.  It goes from Idle to Sampling exactly on the lines S, s and
    the single byte 0, and from Sampling to Idle exactly on a line that,
    trimmed, is empty or begins with the byte 0; a full buffer alone never
    ends a session. *)
Lemma transitions_of_the_machine (evs : list Event) (ev : Event) :
  exists st st',
    boot evs = Done tt st /\ loop ev st = Done tt st' /\
    boot (evs ++ [ev]) = Done tt st' /\
    (acq_state st' = Idle \/ acq_state st' = Sampling) /\
    (acq_state st = Idle ->
     (acq_state st' = Sampling <-> starts_session (serial_line ev))) /\
    (acq_state st = Sampling ->
     (acq_state st' = Idle <-> stops_session (serial_line ev))).
Proof.
  destruct (run_total evs booted wf_booted) as (st & Hrun & Hwf).
  destruct (loop_step ev st Hwf) as (st1 & st' & Hl & _ & Hc & Ha & _).
  exists st, st'. rewrite !boot_eq, run_app, Hrun, run_cons, Hl.
  pose proof (acquisition_step_sampling _ _ _ Ha) as Hs.
  do 3 (split; [done|]). split; [|split].
  - unfold acq_state. destruct (sampling st'); auto.
  - intros Hoff%acq_state_Idle. rewrite acq_state_Sampling, Hs. split.
    + intros Hon. by apply (command_step_start ev st st1).
    + intros (l & Hline & HS%equalsIgnoreCase_S). clear -Hc Hoff Hline HS.
      destruct Hc; cbn; congruence.
  - intros Hon%acq_state_Sampling. rewrite acq_state_Idle, Hs. split.
    + intros Hoff. by apply (command_step_stop ev st st1).
    + intros (l & Hline & He%equals_empty). clear -Hc Hon Hline He.
      destruct Hc; cbn; congruence.
Qed.

Lemma samples_eq st st' :
  sampleIndex st' = sampleIndex st -> (forall c, channel c st' = channel c st) ->
  samples st' = samples st.
Proof.
  intros Hi Hc. unfold samples, rows. rewrite Hi.
  pose proof (Hc AccelX) as H1. pose proof (Hc AccelY) as H2.
  pose proof (Hc AccelZ) as H3. pose proof (Hc GyroX) as H4.
  pose proof (Hc GyroY) as H5. pose proof (Hc GyroZ) as H6.
  cbn [channel] in *. by rewrite H1, H2, H3, H4, H5, H6.
Qed.

(** C2.  In a reachable state that is Sampling with the write index at
    BUFFER_SIZE, an iteration of the loop stores nothing: the index and
    the six arrays are as before, and without a line the machine stays in
    Sampling.  It leaves Sampling exactly on a line on which the handler
    stops the session, and that is not only the empty line: every line
    that, trimmed, begins with the byte 0 stops the session too. *)
Theorem full_buffer_is_quiescent (st : State) (ev : Event) :
  Reachable st -> sampling st = true -> sampleIndex st = BUFFER_SIZE ->
  exists st',
    loop ev st = Done tt st' /\
    sampleIndex st' = sampleIndex st /\
    (forall c, channel c st' = channel c st) /\
    samples st' = samples st /\
    (sampling st' = false <-> stops_session (serial_line ev)) /\
    (serial_line ev = None -> sampling st' = true).
Proof.
  intros Hwf%Reachable_wf Hon Hfull.
  destruct (loop_step ev st Hwf) as (st1 & st' & Hl & _ & Hc & Ha & _).
  pose proof (command_step_sampling_index _ _ _ Hc Hon) as Hi.
  assert (st' = st1) as -> by (apply (acquisition_step_full ev); [done|lia]).
  exists st1. split; [done|]. split; [done|].
  split; [intros c; by apply (command_step_channel ev)|].
  split.
  - apply samples_eq; [done|]. intros c; by apply (command_step_channel ev).
  - split; [split|].
    + intros Hoff. by apply (command_step_stop ev st st1).
    + intros (l & Hl' & He%equals_empty). clear -Hc Hon Hl' He.
      destruct Hc; cbn; congruence.
    + intros Hnone. clear -Hc Hon Hnone. destruct Hc; cbn; congruence.
Qed.


(** Filling the buffer *)

Lemma triples_insert (a b c : list float) i x y z :
  triples (<[i:=x]> a) (<[i:=y]> b) (<[i:=z]> c) = <[i:=(x, y, z)]> (triples a b c).
Proof. unfold triples. by rewrite <- !insert_zip_with. Qed.

Lemma rows_push_sample r st :
  rows (push_sample r st) = <[Z.to_nat (sampleIndex st) := r]> (rows st).
Proof.
  destruct r as [[[ax ay] az] [[gx gy] gz]]. unfold rows, push_sample.
  cbn [accelX accelY accelZ gyroX gyroY gyroZ].
  by rewrite !triples_insert, <- insert_zip_with.
Qed.

Lemma samples_push_sample r st :
  wf st -> sampleIndex st < BUFFER_SIZE ->
  samples (push_sample r st) = samples st ++ [r].
Proof.
  intros [Hs Hi] Hlt. unfold samples.
  rewrite sampleIndex_push_sample, rows_push_sample.
  replace (Z.to_nat (sampleIndex st + 1)) with (S (Z.to_nat (sampleIndex st))) by lia.
  rewrite (take_S_r _ _ r).
  - by rewrite take_insert_ge.
  - apply list_lookup_insert_eq. rewrite length_rows by done. lia.
Qed.

Lemma loop_feed r st :
  wf st -> sampling st = true -> sampleIndex st < BUFFER_SIZE ->
  loop (mkEvent None (ready r)) st = Done tt (push_sample r st).
Proof.
  intros [Hs Hi] Hon Hlt.
  assert (loop_command (mkEvent None (ready r)) st = Done tt st) as Hc by done.
  rewrite loop_eq, Hc.
  rewrite loop_acquisition_ready; [|done|done|lia|done].
  by destruct r.
Qed.

Lemma run_feed rs : forall st,
  wf st -> sampling st = true ->
  sampleIndex st + Z.of_nat (length rs) <= BUFFER_SIZE ->
  exists st',
    run (map (fun r => mkEvent None (ready r)) rs) st = Done tt st' /\
    wf st' /\ sampling st' = true /\
    samples st' = samples st ++ rs /\
    sampleIndex st' = sampleIndex st + Z.of_nat (length rs) /\
    serialOut st' = serialOut st.
Proof.
  induction rs as [|r rs IH]; intros st Hwf Hon Hroom.
  - exists st. cbn. rewrite app_nil_r. repeat split; (done || lia || apply Hwf).
  - cbn [length] in Hroom. cbn [map]. rewrite run_cons, loop_feed; [|done|done|lia].
    destruct (IH (push_sample r st)) as (st' & Hrun & Hwf' & Hon' & Hsm & Hi & Hout).
    + apply wf_push_sample; [done|lia].
    + by rewrite sampling_push_sample.
    + rewrite sampleIndex_push_sample. lia.
    + exists st'. rewrite Hsm, Hi, Hout.
      rewrite samples_push_sample, sampleIndex_push_sample, serialOut_push_sample;
        [|done|lia].
      rewrite <- app_assoc. cbn [length]. repeat split; (done || lia || apply Hwf').
Qed.

Lemma samples_started st : samples (started st) = [].
Proof. reflexivity. Qed.

Lemma loop_start_idle_sensor st :
  wf st -> sampling st = false ->
  loop (mkEvent (Some "S") idle) st =
  Done tt (emit ("Sample failed" +:+ CRLF +:+ pretty 0 +:+ CRLF) (started st)).
Proof.
  intros Hwf Hoff.
  assert (loop_command (mkEvent (Some "S") idle) st = Done tt (started st)) as Hc.
  { unfold loop_command. munfold. cbn. by rewrite Hoff. }
  rewrite loop_eq, Hc.
  rewrite loop_acquisition_not_ready; [done|done| |done].
  cbn. rewrite BUFFER_SIZE_eq. lia.
Qed.

Lemma loop_start_ready st r :
  wf st -> sampling st = false ->
  loop (mkEvent (Some "S") (ready r)) st = Done tt (push_sample r (started st)).
Proof.
  intros Hwf Hoff.
  assert (loop_command (mkEvent (Some "S") (ready r)) st = Done tt (started st)) as Hc.
  { unfold loop_command. munfold. cbn. by rewrite Hoff. }
  rewrite loop_eq, Hc.
  rewrite loop_acquisition_ready; [by destruct r| |done| |done].
  - by apply wf_started.
  - cbn. rewrite BUFFER_SIZE_eq. lia.
Qed.

Lemma run_start_and_feed rs st :
  wf st -> sampling st = false -> Z.of_nat (length rs) <= BUFFER_SIZE ->
  exists st',
    run (start_and_feed rs) st = Done tt st' /\
    wf st' /\ sampling st' = true /\ samples st' = rs /\
    sampleIndex st' = Z.of_nat (length rs).
Proof.
  intros Hwf Hoff Hlen. destruct rs as [|r rs]; cbn [start_and_feed].
  - rewrite run_cons, loop_start_idle_sensor by done.
    eexists; split; [done|]. split; [by apply wf_emit, wf_started|done].
  - cbn [length] in Hlen. rewrite run_cons, loop_start_ready by done.
    destruct (run_feed rs (push_sample r (started st)))
      as (st' & Hrun & Hwf' & Hon' & Hsm & Hi & _).
    + apply wf_push_sample; [by apply wf_started|]. cbn. rewrite BUFFER_SIZE_eq. lia.
    + by rewrite sampling_push_sample.
    + rewrite sampleIndex_push_sample. cbn. lia.
    + exists st'. rewrite Hsm, Hi, sampleIndex_push_sample.
      rewrite samples_push_sample;
        [|by apply wf_started|cbn; rewrite BUFFER_SIZE_eq; lia].
      cbn [length]. repeat split; (done || apply Hwf' || (cbn; lia)).
Qed.

Lemma loop_stop_sampling st l s :
  sampling st = true -> equals (trim l) EmptyString = true ->
  loop (mkEvent (Some l) s) st = Done tt (stopped st).
Proof.
  intros Hon He.
  assert (loop_command (mkEvent (Some l) s) st = Done tt (stopped st)) as Hc.
  { unfold loop_command. munfold. cbn. by rewrite Hon, He. }
  rewrite loop_eq, Hc. by rewrite loop_acquisition_off.
Qed.

Lemma loop_command_start st ev l :
  serial_line ev = Some l -> sampling st = false ->
  equalsIgnoreCase (trim l) "S" = true ->
  loop_command ev st = Done tt (started st).
Proof.
  intros Hl Hoff HS. unfold loop_command. rewrite Hl. munfold. cbn.
  by rewrite Hoff, HS.
Qed.

Lemma loop_blank_sampling st l s :
  sampling st = true -> trim l = EmptyString ->
  loop (mkEvent (Some l) s) st = Done tt (stopped st).
Proof.
  intros Hon Hb. apply loop_stop_sampling; [done|].
  apply equals_empty. by left.
Qed.

Lemma loop_download_idle st ev :
  wf st -> sampling st = false -> download_line (serial_line ev) ->
  loop ev st = Done tt (emit (download_text st) st).
Proof.
  intros Hwf Hoff (l & Hl & HD).
  assert (loop_command ev st = Done tt (emit (download_text st) st)) as Hc.
  { unfold loop_command. rewrite Hl. munfold. cbn. rewrite Hoff. cbn.
    assert (equalsIgnoreCase (trim l) "S" = false) as ->
      by (destruct HD as [-> | ->]; done).
    assert (equalsIgnoreCase (trim l) "D" = true) as ->
      by (destruct HD as [-> | ->]; done).
    by rewrite downloadData_eq. }
  rewrite loop_eq, Hc. by rewrite loop_acquisition_off.
Qed.

(** C3.  Round trip: start with S, let the sensor deliver [n < BUFFER_SIZE]
    readings, stop with a blank line, then send D.  The download writes
    exactly those readings, in their order, one line each, every value
    printed with six decimals; the buffer holds exactly them. *)
Theorem session_round_trip (rs : list Sample) (s_stop s_download : IMU) :
  Z.of_nat (length rs) < BUFFER_SIZE ->
  exists st st',
    boot (start_and_feed rs ++ [mkEvent (Some EmptyString) s_stop]) = Done tt st /\
    loop (mkEvent (Some "D") s_download) st = Done tt st' /\
    samples st = rs /\
    serialOut st' = serialOut st +:+ text_of (map format_row rs).
Proof.
  intros Hlen. rewrite boot_eq, run_app.
  destruct (run_start_and_feed rs booted wf_booted) as (st0 & Hrun & Hwf & Hon & Hsm & _);
    [done|lia|].
  rewrite Hrun, run_cons, loop_blank_sampling by done.
  exists (stopped st0), (emit (download_text (stopped st0)) (stopped st0)).
  split; [done|]. split; [|split; [done|]].
  - apply loop_download_idle; [by apply wf_stopped|done|].
    eexists; split; [done|by left].
  - cbn. unfold download_text. by rewrite <- Hsm.
Qed.


(** The download format *)

Lemma count_char_app c (a b : string) :
  count_char c (a +:+ b) = (count_char c a + count_char c b)%nat.
Proof.
  induction a as [|x a IH]; [done|].
  rewrite append_cons. cbn [count_char]. rewrite IH. lia.
Qed.

Lemma plain_no_semicolon s : plain s = true -> split_on ";" s = [s].
Proof.
  induction s as [|x s IH]; [done|]. cbn [plain split_on].
  intros [Hx Hs]%andb_true_iff. rewrite (IH Hs).
  destruct (bool_decide_reflect (x = ";"%char)) as [->|]; done.
Qed.

Lemma split_on_plain_prefix (a b : string) :
  plain a = true -> split_on ";" (a +:+ ";" +:+ b) = a :: split_on ";" b.
Proof.
  induction a as [|x a IH]; [done|]. cbn [plain].
  intros [Hx Ha]%andb_true_iff. rewrite append_cons. cbn [split_on].
  rewrite (IH Ha).
  destruct (bool_decide_reflect (x = ";"%char)) as [->|]; done.
Qed.

Lemma split_on_concat (fs : list string) :
  fs <> [] -> Forall (fun f => plain f = true) fs ->
  split_on ";" (String.concat ";" fs) = fs.
Proof.
  induction fs as [|f fs IH]; [done|]. intros _ Hall.
  apply Forall_cons in Hall as [Hf Hfs].
  destruct fs as [|g fs]; [by apply plain_no_semicolon|].
  change (String.concat ";" (f :: g :: fs))
    with (f +:+ ";" +:+ String.concat ";" (g :: fs)).
  rewrite split_on_plain_prefix by done. by rewrite IH.
Qed.

Lemma plain_no_newline s : plain s = true -> count_char (ascii_of_nat 10) s = O.
Proof.
  induction s as [|x s IH]; [done|]. cbn [plain count_char].
  intros [Hx Hs]%andb_true_iff. rewrite (IH Hs).
  destruct (bool_decide_reflect (x = ascii_of_nat 10)) as [->|]; done.
Qed.

Lemma count_newlines_concat (fs : list string) :
  Forall (fun f => plain f = true) fs ->
  count_char (ascii_of_nat 10) (String.concat ";" fs) = O.
Proof.
  induction fs as [|f fs IH]; [done|]. intros Hall.
  apply Forall_cons in Hall as [Hf Hfs].
  destruct fs as [|g fs]; [by apply plain_no_newline|].
  change (String.concat ";" (f :: g :: fs))
    with (f +:+ ";" +:+ String.concat ";" (g :: fs)).
  rewrite !count_char_app, plain_no_newline, IH by done. done.
Qed.

Lemma count_newlines_text (lines : list string) :
  Forall (fun l => count_char (ascii_of_nat 10) l = 1%nat) lines ->
  count_char (ascii_of_nat 10) (text_of lines) = length lines.
Proof.
  induction 1 as [|l lines Hl _ IH]; [done|].
  cbn [text_of foldr length]. rewrite count_char_app. fold (text_of lines).
  rewrite Hl, IH. done.
Qed.

Lemma length_samples st : wf st -> length (samples st) = Z.to_nat (sampleIndex st).
Proof.
  intros [Hs Hi]. unfold samples. rewrite length_take, length_rows by done. lia.
Qed.

Lemma plain_fields r :
  (forall x d, plain (printFloat x d) = true) ->
  Forall (fun f => plain f = true) (fields_of r).
Proof.
  intros Hp. unfold fields_of.
  change (map ?f ?l) with (f <$> l). apply Forall_forall.
  intros f (x & -> & _)%list_elem_of_fmap. apply Hp.
Qed.

(** C4.  For a buffer of [n] samples the download writes [n] lines and
    nothing else; line [i] is the six values of row [i] in the order accelX,
    accelY, accelZ, gyroX, gyroY, gyroZ, each printed with six decimals,
    joined by ';' and ended by the line terminator.  With [n = 0] nothing is
    written.  As long as the float printer itself produces no ';' and no
    line break, cutting a line at ';' gives back exactly those six fields
    and the text has exactly [n] line feeds. *)
Theorem download_emits_one_line_per_sample (st : State) :
  wf st ->
  exists lines st',
    downloadData st = Done tt st' /\
    st' = emit (text_of lines) st /\
    length lines = Z.to_nat (sampleIndex st) /\
    (sampleIndex st = 0 -> serialOut st' = serialOut st) /\
    (forall i line, lines !! i = Some line ->
       exists ax ay az gx gy gz,
         accelX st !! i = Some ax /\ accelY st !! i = Some ay /\
         accelZ st !! i = Some az /\ gyroX st !! i = Some gx /\
         gyroY st !! i = Some gy /\ gyroZ st !! i = Some gz /\
         let fields := [printFloat ax 6; printFloat ay 6; printFloat az 6;
                        printFloat gx 6; printFloat gy 6; printFloat gz 6] in
         line = String.concat ";" fields +:+ CRLF /\
         ((forall x d, plain (printFloat x d) = true) ->
          split_on ";" (String.concat ";" fields) = fields)) /\
    ((forall x d, plain (printFloat x d) = true) ->
     count_char (ascii_of_nat 10) (text_of lines) = Z.to_nat (sampleIndex st)).
Proof.
  intros Hwf. exists (map format_row (samples st)), (emit (download_text st) st).
  split; [by apply downloadData_eq|]. split; [done|].
  split; [by rewrite length_map, length_samples|].
  split; [|split].
  - intros Hz. cbn. unfold download_text, samples. rewrite Hz. cbn.
    apply append_nil_r.
  - intros i line Hline.
    change (map format_row (samples st)) with (format_row <$> samples st) in Hline.
    apply list_lookup_fmap_Some in Hline as (r & -> & Hr).
    unfold samples in Hr. apply lookup_take_Some in Hr as [Hr _].
    destruct r as [[[ax ay] az] [[gx gy] gz]].
    pose proof Hr as (H1 & H2 & H3 & H4 & H5 & H6)%rows_lookup.
    exists ax, ay, az, gx, gy, gz. do 6 (split; [done|]).
    split; [done|]. intros Hp.
    apply (split_on_concat (fields_of (ax, ay, az, (gx, gy, gz)))); [done|].
    by apply plain_fields.
  - intros Hp. rewrite count_newlines_text.
    + by rewrite length_map, length_samples.
    + change (map format_row (samples st)) with (format_row <$> samples st).
      apply Forall_forall. intros line (r & -> & _)%list_elem_of_fmap.
      unfold format_row. rewrite count_char_app, count_newlines_concat.
      * done.
      * by apply plain_fields.
Qed.


(** Sessions and idle periods *)

Lemma command_step_keeps_sampling ev st st1 :
  command_step ev st st1 -> sampling st = true ->
  ~ stops_session (serial_line ev) ->
  sampling st1 = true.
Proof.
  intros Hc Hon Hnb. destruct (sampling st1) eqn:Hs1; [done|].
  destruct (command_step_stop _ _ _ Hc Hon Hs1) as [Hb _]. by destruct Hnb.
Qed.

Lemma command_step_keeps_idle ev st st1 :
  command_step ev st st1 -> sampling st = false ->
  ~ starts_session (serial_line ev) ->
  sampling st1 = false /\ sampleIndex st1 = sampleIndex st.
Proof.
  intros Hc Hoff Hns. destruct Hc as [ |l Hl _ HS| | | | | ]; cbn; try done.
  destruct Hns. exists l. split; [done|]. by apply equalsIgnoreCase_S.
Qed.

Lemma session_monotone evs : forall st,
  wf st -> sampling st = true ->
  Forall (fun ev => ~ stops_session (serial_line ev)) evs ->
  exists st',
    run evs st = Done tt st' /\ wf st' /\ sampling st' = true /\
    sampleIndex st <= sampleIndex st'.
Proof.
  induction evs as [|ev evs IH]; intros st Hwf Hon Hall.
  - exists st. do 3 (split; [done|]). lia.
  - apply Forall_cons in Hall as [Hnb Hall].
    destruct (loop_step ev st Hwf) as (st1 & st2 & Hl & _ & Hc & Ha & Hwf2).
    pose proof (command_step_keeps_sampling _ _ _ Hc Hon Hnb) as Hon1.
    pose proof (command_step_sampling_index _ _ _ Hc Hon) as Hi1.
    pose proof (acquisition_step_sampling _ _ _ Ha) as Hon2.
    pose proof (acquisition_step_index _ _ _ Ha) as Hi2.
    destruct (IH st2) as (st' & Hrun & Hwf' & Hon' & Hi'); [done|congruence|done|].
    exists st'. rewrite run_cons, Hl. do 3 (split; [done|]). lia.
Qed.

Lemma idle_frame evs : forall st,
  wf st -> sampling st = false ->
  Forall (fun ev => ~ starts_session (serial_line ev)) evs ->
  exists st',
    run evs st = Done tt st' /\ wf st' /\ sampling st' = false /\
    sampleIndex st' = sampleIndex st /\ (forall c, channel c st' = channel c st).
Proof.
  induction evs as [|ev evs IH]; intros st Hwf Hoff Hall.
  - exists st. by do 4 (split; [done|]).
  - apply Forall_cons in Hall as [Hns Hall].
    destruct (loop_step ev st Hwf) as (st1 & st2 & Hl & _ & Hc & Ha & Hwf2).
    destruct (command_step_keeps_idle _ _ _ Hc Hoff Hns) as [Hoff1 Hi1].
    pose proof (acquisition_step_idle _ _ _ Ha Hoff1) as ->.
    destruct (IH st1) as (st' & Hrun & Hwf' & Hoff' & Hi' & Hch'); [done..|].
    exists st'. rewrite run_cons, Hl. split; [done|]. split; [done|].
    split; [done|]. split; [congruence|].
    intros c. rewrite Hch'. by apply (command_step_channel ev).
Qed.

(** C5.  While a session lasts the write index never goes down: not in
    one iteration of the loop (the stopping one included) and not over any
    run of iterations up to the line that stops the session.  Every line
    that takes the machine from Idle to Sampling, the S command first of
    all, makes [startSampling] set the index to exactly 0; the buffer is
    then empty, and the iteration ends in Sampling having stored at most
    the first sample. *)
Theorem buffer_length_within_session (st : State) :
  Reachable st ->
  (forall ev, sampling st = true ->
     exists st', loop ev st = Done tt st' /\ sampleIndex st <= sampleIndex st') /\
  (forall evs, sampling st = true ->
     Forall (fun ev => ~ stops_session (serial_line ev)) evs ->
     exists st', run evs st = Done tt st' /\ sampling st' = true /\
                 sampleIndex st <= sampleIndex st') /\
  (forall ev, sampling st = false -> starts_session (serial_line ev) ->
     exists st1 st',
       loop_command ev st = Done tt st1 /\
       sampling st1 = true /\ sampleIndex st1 = 0 /\ samples st1 = [] /\
       loop ev st = Done tt st' /\
       sampling st' = true /\ 0 <= sampleIndex st' <= 1).
Proof.
  intros Hwf%Reachable_wf. split; [|split].
  - intros ev Hon.
    destruct (loop_step ev st Hwf) as (st1 & st' & Hl & _ & Hc & Ha & _).
    exists st'. split; [done|].
    pose proof (command_step_sampling_index _ _ _ Hc Hon).
    pose proof (acquisition_step_index _ _ _ Ha). lia.
  - intros evs Hon Hall.
    destruct (session_monotone evs st Hwf Hon Hall) as (st' & ? & _ & ? & ?).
    by exists st'.
  - intros ev Hoff (l & Hl & HS%equalsIgnoreCase_S).
    destruct (loop_step ev st Hwf) as (st1 & st' & Hloop & Hcmd & Hc & Ha & _).
    assert (st1 = started st) as ->.
    { destruct Hc; try congruence. }
    exists (started st), st'. do 4 (split; [done|]). split; [done|].
    split; [by rewrite (acquisition_step_sampling _ _ _ Ha)|].
    destruct Ha; rewrite ?sampleIndex_push_sample; cbn; lia.
Qed.

(** A line read while Sampling.  If, trimmed, it is empty or begins with
    the byte 0, the session is stopped and the iteration ends in Idle.  On
    every other line the handler prints the diagnostic and changes nothing
    else, so the write index and the six arrays are as they were and the
    iteration ends in Sampling. *)
Lemma line_while_sampling (st : State) (ev : Event) (l : string) :
  Reachable st -> sampling st = true -> serial_line ev = Some l ->
  (stops_session (Some l) ->
     loop_command ev st = Done tt (stopped st) /\
     loop ev st = Done tt (stopped st) /\
     acq_state (stopped st) = Idle) /\
  (~ stops_session (Some l) ->
     exists st1 st',
       loop_command ev st = Done tt st1 /\
       serialOut st1 =
         serialOut st +:+ "Invalid command. Press Enter to stop." +:+ CRLF /\
       sampling st1 = true /\ sampleIndex st1 = sampleIndex st /\
       (forall c, channel c st1 = channel c st) /\
       loop ev st = Done tt st' /\ acq_state st' = Sampling).
Proof.
  intros Hwf%Reachable_wf Hon Hl.
  destruct (loop_step ev st Hwf) as (st1 & st' & Hloop & Hcmd & Hc & Ha & _).
  split.
  - intros He%stops_session_equals. assert (st1 = stopped st) as ->.
    { destruct Hc; congruence. }
    assert (st' = stopped st) as -> by by apply (acquisition_step_idle ev).
    done.
  - intros Hnb.
    assert (equals (trim l) EmptyString = false) as He.
    { destruct (equals (trim l) EmptyString) eqn:He; [|done].
      destruct Hnb. by apply stops_session_equals. }
    assert (st1 = emit ("Invalid command. Press Enter to stop." +:+ CRLF) st) as ->.
    { destruct Hc; congruence. }
    eexists _, st'. split; [done|]. do 3 (split; [done|]).
    split; [intros c; apply channel_emit|]. split; [done|].
    apply acq_state_Sampling. by rewrite (acquisition_step_sampling _ _ _ Ha).
Qed.

(** A line read while Idle is trimmed and compared: S, s and the single
    byte 0 start a session, D or d downloads the buffer as it is and
    changes nothing else, X or x runs the stop routine and the machine
    stays Idle with the buffer untouched, and on any other line the
    iteration changes nothing and prints nothing. *)
Lemma dispatch_when_idle (st : State) (ev : Event) (l : string) :
  Reachable st -> sampling st = false -> serial_line ev = Some l ->
  (starts_session (Some l) ->
     loop_command ev st = Done tt (started st) /\
     exists st', loop ev st = Done tt st' /\ acq_state st' = Sampling) /\
  (trim l = "D" \/ trim l = "d" ->
     loop ev st = Done tt (emit (text_of (map format_row (samples st))) st)) /\
  (trim l = "X" \/ trim l = "x" ->
     loop ev st = Done tt (stopped st) /\
     acq_state (stopped st) = Idle /\
     sampleIndex (stopped st) = sampleIndex st /\
     samples (stopped st) = samples st) /\
  (~ (trim l = "S" \/ trim l = "s" \/ trim l = String NUL EmptyString \/
      trim l = "D" \/ trim l = "d" \/ trim l = "X" \/ trim l = "x") ->
     loop ev st = Done tt st).
Proof.
  intros Hwf%Reachable_wf Hoff Hl.
  destruct (loop_step ev st Hwf) as (st1 & st' & Hloop & Hcmd & Hc & Ha & _).
  assert (forall t, sampling t = false -> st1 = t -> st' = t) as Hidle.
  { intros t Ht ->. by apply (acquisition_step_idle ev). }
  split; [|split; [|split]].
  - intros HS%starts_session_equalsIgnoreCase.
    assert (st1 = started st) as -> by (destruct Hc; congruence).
    split; [done|]. exists st'. split; [done|].
    apply acq_state_Sampling. by rewrite (acquisition_step_sampling _ _ _ Ha).
  - intros HD. rewrite Hloop. f_equal. apply Hidle; [done|].
    assert (equalsIgnoreCase (trim l) "S" = false)
      by (destruct HD as [-> | ->]; done).
    assert (equalsIgnoreCase (trim l) "D" = true)
      by (destruct HD as [-> | ->]; done).
    change (text_of (map format_row (samples st))) with (download_text st).
    destruct Hc; congruence.
  - intros HX. split; [|done]. rewrite Hloop. f_equal. apply Hidle; [done|].
    assert (equalsIgnoreCase (trim l) "S" = false)
      by (destruct HX as [-> | ->]; done).
    assert (equalsIgnoreCase (trim l) "D" = false)
      by (destruct HX as [-> | ->]; done).
    assert (equalsIgnoreCase (trim l) "X" = true)
      by (destruct HX as [-> | ->]; done).
    destruct Hc; congruence.
  - intros Hother. rewrite Hloop. f_equal. apply (Hidle _ Hoff).
    destruct Hc as [ |l' Hl' _ HS|l' Hl' _ _ HD|l' Hl' _ _ _ HX| | | ];
      try congruence; exfalso; apply Hother; simplify_eq.
    + apply equalsIgnoreCase_S in HS. tauto.
    + apply equalsIgnoreCase_D in HD. tauto.
    + apply equalsIgnoreCase_X in HX. tauto.
Qed.

(** C9.  In every reachable state the write index lies between 0 and
    BUFFER_SIZE and each channel array has BUFFER_SIZE cells.  Hence the
    index the acquisition block writes at and every index the download
    reads at is inside the arrays, and neither the loop nor the download
    ever takes the out-of-bounds branch. *)
Theorem array_accesses_in_bounds (st : State) :
  Reachable st ->
  0 <= sampleIndex st <= BUFFER_SIZE /\
  (forall c, Z.of_nat (length (channel c st)) = BUFFER_SIZE) /\
  (forall c, sampleIndex st < BUFFER_SIZE ->
     in_bounds (channel c st) (sampleIndex st) = true) /\
  (forall c i, 0 <= i < sampleIndex st -> in_bounds (channel c st) i = true) /\
  (forall ev, exists st',
     loop_acquisition ev st = Done tt st' /\ 0 <= sampleIndex st' <= BUFFER_SIZE) /\
  (exists st', downloadData st = Done tt st') /\
  (forall ev, exists st', loop ev st = Done tt st' /\ Reachable st').
Proof.
  intros Hr. pose proof (Reachable_wf st Hr) as Hwf.
  pose proof Hwf as [Hs Hi]. split; [done|]. split; [|split; [|split; [|split; [|split]]]].
  - intros c. rewrite (Hs c). rewrite BUFFER_SIZE_eq. lia.
  - intros c Hlt. apply in_bounds_sized; [done|lia].
  - intros c i Hlt. apply in_bounds_sized; [done|lia].
  - intros ev. destruct (loop_acquisition_step ev st Hwf) as (st' & Ha & Has).
    exists st'. split; [done|]. by apply (acquisition_step_wf ev st).
  - eexists. by apply downloadData_eq.
  - intros ev. destruct (loop_step ev st Hwf) as (st1 & st' & Hl & _).
    exists st'. split; [done|]. by apply (Reachable_loop st ev).
Qed.

(** C10.  Neither [stopSampling] nor [downloadData] touches the write index
    or a stored sample.  So after a session is stopped the collected
    samples stay as they are until the next start, that is as long as no
    line arrives on which the handler starts a session (S, s or the single
    byte 0), and two D commands in a row write the same text. *)
Theorem stop_and_download_preserve_buffer (st : State) :
  Reachable st ->
  (exists st', stopSampling st = Done tt st' /\
     sampleIndex st' = sampleIndex st /\
     (forall c, channel c st' = channel c st) /\ samples st' = samples st) /\
  (exists st', downloadData st = Done tt st' /\
     sampleIndex st' = sampleIndex st /\
     (forall c, channel c st' = channel c st) /\ samples st' = samples st) /\
  (forall evs, sampling st = false ->
     Forall (fun ev => ~ starts_session (serial_line ev)) evs ->
     exists st', run evs st = Done tt st' /\ sampling st' = false /\
       sampleIndex st' = sampleIndex st /\
       (forall c, channel c st' = channel c st) /\ samples st' = samples st) /\
  (forall e1 e2, sampling st = false ->
     download_line (serial_line e1) -> download_line (serial_line e2) ->
     exists out st1 st2,
       loop e1 st = Done tt st1 /\ loop e2 st1 = Done tt st2 /\
       serialOut st1 = serialOut st +:+ out /\
       serialOut st2 = serialOut st1 +:+ out).
Proof.
  intros Hwf%Reachable_wf. split; [|split; [|split]].
  - exists (stopped st). split; [done|]. split; [done|].
    split; [intros c; apply channel_stopped|done].
  - exists (emit (download_text st) st). split; [by apply downloadData_eq|].
    split; [done|]. split; [intros c; apply channel_emit|done].
  - intros evs Hoff Hall.
    destruct (idle_frame evs st Hwf Hoff Hall) as (st' & Hrun & _ & Hoff' & Hi & Hch).
    exists st'. do 4 (split; [done|]). by apply samples_eq.
  - intros e1 e2 Hoff HD1 HD2.
    exists (download_text st), (emit (download_text st) st),
      (emit (download_text st) (emit (download_text st) st)).
    split; [by apply loop_download_idle|]. split; [|done].
    by apply (loop_download_idle (emit (download_text st) st)); [apply wf_emit| |].
Qed.

(** C7 (as the code has it).  The capacity is SAMPLE_RATE x DURATION, and
    with the constants of the sketch, 100 Hz and 30 s, that is 3000.  A
    session fed 3000 readings stores all of them and is still Sampling with
    the buffer full; one more iteration with the sensor ready stores
    nothing and leaves the state as it is. *)
Theorem buffer_capacity_is_3000 (rs : list Sample) (extra : Sample) :
  length rs = 3000%nat ->
  BUFFER_SIZE = SAMPLE_RATE * DURATION /\
  BUFFER_SIZE = 3000 /\
  exists st,
    boot (start_and_feed rs) = Done tt st /\
    acq_state st = Sampling /\
    sampleIndex st = 3000 /\
    samples st = rs /\
    loop (mkEvent None (ready extra)) st = Done tt st.
Proof.
  intros Hlen. split; [done|]. split; [done|]. rewrite boot_eq.
  destruct (run_start_and_feed rs booted wf_booted) as (st & Hrun & Hwf & Hon & Hsm & Hi);
    [done|rewrite BUFFER_SIZE_eq; lia|].
  exists st. split; [done|]. split; [by apply acq_state_Sampling|].
  split; [lia|]. split; [done|].
  assert (loop_command (mkEvent None (ready extra)) st = Done tt st) as Hc by done.
  rewrite loop_eq, Hc. apply loop_acquisition_full. rewrite BUFFER_SIZE_eq. lia.
Qed.

End Properties.

(** ** The concrete platform *)

Lemma plain_app (a b : string) : plain (a +:+ b) = plain a && plain b.
Proof.
  induction a as [|x a IH]; [done|].
  rewrite append_cons. cbn [plain]. rewrite IH. by rewrite andb_assoc.
Qed.

Lemma digit_char_plain k : delimiter (digit_char k) = false.
Proof.
  destruct k as [|p|p]; try done.
  repeat (destruct p as [p|p|]; try done).
Qed.

Lemma int_digits_plain fuel : forall k acc,
  plain acc = true -> plain (int_digits fuel k acc) = true.
Proof.
  induction fuel as [|fuel IH]; intros k acc Hacc; cbn [int_digits].
  - cbn [plain]. by rewrite digit_char_plain, Hacc.
  - destruct (k <? 10).
    + cbn [plain]. by rewrite digit_char_plain, Hacc.
    + apply IH. cbn [plain]. by rewrite digit_char_plain, Hacc.
Qed.

Lemma frac_digits_plain digits : forall r, plain (frac_digits digits r) = true.
Proof.
  induction digits as [|d IH]; intros r; [done|].
  cbn [frac_digits plain]. by rewrite digit_char_plain, IH.
Qed.

Lemma print_millionths_plain z digits : plain (print_millionths z digits) = true.
Proof.
  unfold print_millionths. rewrite !plain_app.
  rewrite int_digits_plain, frac_digits_plain by done.
  by destruct (z <? 0), digits.
Qed.

Lemma boot_state_after (evs : list (@Event synthetic)) :
  boot evs = Done tt (state_after (boot evs)).
Proof.
  rewrite boot_eq.
  destruct (run_total evs booted wf_booted) as (st & Hrun & _). by rewrite Hrun.
Qed.

Lemma Reachable_state_after (evs : list (@Event synthetic)) :
  Reachable (state_after (boot evs)).
Proof. exists evs. apply boot_state_after. Qed.

Lemma demo_full_is_full :
  Reachable demo_full /\ sampling demo_full = true /\
  sampleIndex demo_full = BUFFER_SIZE.
Proof.
  split; [apply Reachable_state_after|].
  destruct (run_start_and_feed full_session booted wf_booted)
    as (st & Hrun & _ & Hon & _ & Hi); [done|done|].
  unfold demo_full. rewrite boot_eq, Hrun. cbn [state_after].
  split; [done|]. rewrite Hi. unfold full_session. by rewrite length_replicate.
Qed.

(** ** Concrete runs *)

(** With the buffer full, a line that begins with the byte 0 ends the
    session although it is not empty; without a line the machine stays in
    Sampling; the buffer stays full either way. *)
Lemma full_buffer_is_quiescent_witness :
  Reachable demo_full /\ sampling demo_full = true /\
  sampleIndex demo_full = BUFFER_SIZE /\
  (exists st',
     loop (offer (Some nul_led_line)) demo_full = Done tt st' /\
     sampleIndex st' = 3000 /\ sampling st' = false) /\
  (exists st',
     loop (offer None) demo_full = Done tt st' /\
     sampleIndex st' = 3000 /\ sampling st' = true).
Proof.
  destruct demo_full_is_full as (Hr & Hon & Hi).
  do 3 (split; [assumption|]). split.
  - destruct (full_buffer_is_quiescent demo_full (offer (Some nul_led_line))
                Hr Hon Hi) as (st' & Hl & Hidx & _ & _ & Hstop & _).
    exists st'. split; [assumption|]. split; [rewrite Hidx, Hi; reflexivity|].
    apply Hstop. exists nul_led_line. split; [reflexivity|].
    right. exists "D". reflexivity.
  - destruct (full_buffer_is_quiescent demo_full (offer None)
                Hr Hon Hi) as (st' & Hl & Hidx & _ & _ & _ & Hnone).
    exists st'. split; [assumption|]. split; [rewrite Hidx, Hi; reflexivity|].
    apply Hnone. reflexivity.
Defined.

(** Two readings come back as two lines. *)
Lemma session_round_trip_witness :
  Z.of_nat (length short_session) < BUFFER_SIZE /\
  exists st st',
    boot (start_and_feed short_session ++ [quiet (Some EmptyString)])
      = Done tt st /\
    loop (quiet (Some "D")) st = Done tt st' /\
    samples st = short_session /\
    serialOut st' = serialOut st +:+ text_of (map format_row short_session).
Proof.
  split; [reflexivity|].
  apply (session_round_trip short_session idle idle). reflexivity.
Defined.

Lemma download_emits_one_line_per_sample_witness :
  wf demo_stopped /\
  exists lines st',
    downloadData demo_stopped = Done tt st' /\
    st' = emit (text_of lines) demo_stopped /\
    length lines = 2%nat /\
    count_char (ascii_of_nat 10) (text_of lines) = 2%nat.
Proof.
  assert (wf demo_stopped) as Hwf by apply Reachable_wf, Reachable_state_after.
  split; [assumption|].
  destruct (download_emits_one_line_per_sample demo_stopped Hwf)
    as (lines & st' & Hd & Hst & Hlen & _ & _ & Hcount).
  exists lines, st'. split; [assumption|]. split; [assumption|].
  assert (Z.to_nat (sampleIndex demo_stopped) = 2%nat) as Hn
    by (vm_compute; reflexivity).
  split; [by rewrite Hlen|].
  rewrite Hcount; [assumption|]. apply print_millionths_plain.
Defined.

Lemma buffer_length_within_session_witness :
  Reachable demo_sampling /\
  exists st',
    loop (offer (Some "x")) demo_sampling = Done tt st' /\
    sampleIndex demo_sampling <= sampleIndex st'.
Proof.
  assert (Reachable demo_sampling) as Hr by apply Reachable_state_after.
  split; [assumption|].
  destruct (buffer_length_within_session demo_sampling Hr) as (Hstep & _ & _).
  apply Hstep. vm_compute; reflexivity.
Defined.

(** C1 fails on the program.  After power-on the line that is the single
    byte 0 takes the machine from Idle to Sampling, and a line that begins
    with the byte 0 then takes it back to Idle, although neither is an S
    command or a blank line (and the buffer is not full). *)
Theorem nul_lines_switch_the_machine :
  exists st1 st2,
    boot [quiet (Some nul_line)] = Done tt st1 /\
    acq_state st1 = Sampling /\
    boot [quiet (Some nul_line); quiet (Some nul_led_line)] = Done tt st2 /\
    acq_state st2 = Idle /\
    sampleIndex st2 < BUFFER_SIZE /\
    ~ says "S" (Some nul_line) /\ ~ says "s" (Some nul_line) /\
    ~ says EmptyString (Some nul_led_line).
Proof.
  pose (st1 := emit ("Sample failed" +:+ CRLF +:+ "0" +:+ CRLF)
                 (started (P:=synthetic) booted)).
  assert (loop (quiet (Some nul_line)) booted = Done tt st1) as H1.
  { rewrite loop_eq, (loop_command_start booted _ nul_line) by reflexivity.
    rewrite loop_acquisition_not_ready by reflexivity. reflexivity. }
  assert (loop (quiet (Some nul_led_line)) st1 = Done tt (stopped st1)) as H2
    by (apply loop_stop_sampling; reflexivity).
  assert (boot [quiet (Some nul_line)] = Done tt st1) as B1
    by (rewrite boot_eq, run_cons, H1; reflexivity).
  assert (boot [quiet (Some nul_line); quiet (Some nul_led_line)]
          = Done tt (stopped st1)) as B2.
  { rewrite boot_eq, run_cons, H1. cbv beta iota.
    rewrite run_cons, H2. reflexivity. }
  exists st1, (stopped st1).
  split; [exact B1|]. split; [reflexivity|]. split; [exact B2|].
  split; [reflexivity|]. split; [reflexivity|].
  split; [|split]; intros (l & Hl & Ht); injection Hl as <-;
    vm_compute in Ht; discriminate Ht.
Qed.

(** C6 fails on the program.  Read while Sampling, a line that is not empty
    but begins with the byte 0 is not rejected with the diagnostic: the
    handler takes it for the empty line and stops the session. *)
Theorem nul_led_line_stops_the_session :
  trim nul_led_line <> EmptyString /\
  sampling demo_sampling = true /\
  loop (offer (Some nul_led_line)) demo_sampling = Done tt (stopped demo_sampling) /\
  acq_state (stopped demo_sampling) = Idle.
Proof.
  assert (sampling demo_sampling = true) as Hon by (vm_compute; reflexivity).
  split; [vm_compute; discriminate|]. split; [assumption|].
  split; [|reflexivity].
  apply loop_stop_sampling; [assumption|reflexivity].
Qed.

(** C8 fails on the program.  Read while Idle, the line that is the single
    byte 0 is not ignored: the handler takes it for S, so the session that
    was stored is discarded (the write index goes back to 0) and sampling
    starts. *)
Theorem nul_line_starts_a_session :
  trim nul_line = nul_line /\
  sampling demo_stopped = false /\ sampleIndex demo_stopped = 2 /\
  loop (quiet (Some nul_line)) demo_stopped =
    Done tt (emit ("Sample failed" +:+ CRLF +:+ "0" +:+ CRLF)
               (started demo_stopped)) /\
  acq_state (started demo_stopped) = Sampling /\
  sampleIndex (started demo_stopped) = 0.
Proof.
  assert (sampling demo_stopped = false) as Hoff by (vm_compute; reflexivity).
  split; [reflexivity|]. split; [assumption|].
  split; [vm_compute; reflexivity|]. split; [|split; reflexivity].
  rewrite loop_eq, (loop_command_start demo_stopped _ nul_line);
    [|reflexivity|assumption|reflexivity].
  rewrite loop_acquisition_not_ready by reflexivity. reflexivity.
Qed.

Lemma array_accesses_in_bounds_witness :
  Reachable demo_sampling /\
  0 <= sampleIndex demo_sampling <= BUFFER_SIZE /\
  exists st', downloadData demo_sampling = Done tt st'.
Proof.
  assert (Reachable demo_sampling) as Hr by apply Reachable_state_after.
  split; [assumption|].
  destruct (array_accesses_in_bounds demo_sampling Hr)
    as (Hi & _ & _ & _ & _ & Hd & _).
  split; assumption.
Defined.

Lemma stop_and_download_preserve_buffer_witness :
  Reachable demo_stopped /\
  exists out st1 st2,
    loop (quiet (Some "D")) demo_stopped = Done tt st1 /\
    loop (quiet (Some "d")) st1 = Done tt st2 /\
    serialOut st1 = serialOut demo_stopped +:+ out /\
    serialOut st2 = serialOut st1 +:+ out.
Proof.
  assert (Reachable demo_stopped) as Hr by apply Reachable_state_after.
  split; [assumption|].
  destruct (stop_and_download_preserve_buffer demo_stopped Hr)
    as (_ & _ & _ & Htwice).
  apply Htwice; [vm_compute; reflexivity| |]; eexists;
    (split; [reflexivity|first [left; reflexivity|right; reflexivity]]).
Defined.

Lemma buffer_capacity_is_3000_witness :
  length full_session = 3000%nat /\
  BUFFER_SIZE = 3000 /\
  exists st,
    boot (start_and_feed full_session) = Done tt st /\
    sampleIndex st = 3000 /\
    loop (offer None) st = Done tt st.
Proof.
  assert (length full_session = 3000%nat) as Hlen by apply length_replicate.
  split; [assumption|].
  destruct (buffer_capacity_is_3000 full_session reading_b Hlen)
    as (_ & Hsize & st & Hrun & _ & Hi & _ & Hextra).
  split; [assumption|]. exists st.
  split; [assumption|]. split; assumption.
Defined.

(** C7 as the design document has it fails: the capacity is not 300, and in
    a session that has stored 300 samples the next iteration with the
    sensor ready stores a 301st. *)
Lemma buffer_capacity_is_not_300 :
  BUFFER_SIZE <> 300 /\
  exists st st',
    boot (start_and_feed (replicate 300 reading_a)) = Done tt st /\
    acq_state st = Sampling /\ sampleIndex st = 300 /\
    loop (offer None) st = Done tt st' /\
    sampleIndex st' = 301 /\
    samples st' = replicate 300 reading_a ++ [reading_b].
Proof.
  split; [discriminate|]. rewrite boot_eq.
  destruct (run_start_and_feed (replicate 300 reading_a) booted wf_booted)
    as (st & Hrun & Hwf & Hon & Hsm & Hi);
    [reflexivity|rewrite length_replicate; discriminate|].
  rewrite length_replicate in Hi.
  assert (sampleIndex st < BUFFER_SIZE) as Hroom by (rewrite Hi; reflexivity).
  exists st, (push_sample reading_b st). split; [assumption|].
  split; [apply acq_state_Sampling; assumption|]. split; [assumption|].
  split; [apply loop_feed; assumption|].
  split; [rewrite sampleIndex_push_sample, Hi; reflexivity|].
  rewrite samples_push_sample, Hsm by assumption. reflexivity.
Qed.

(** The fault is real: outside the invariant the acquisition block does
    write out of bounds. *)
Example negative_index_is_out_of_bounds :
  loop_acquisition (offer None)
    (with_sampleIndex (-1) (with_sampling true booted)) = OutOfBounds.
Proof. reflexivity. Qed.

Example download_of_short_session :
  serialOut (state_after (loop (quiet (Some "D")) demo_stopped)) =
  serialOut demo_stopped
  +:+ "-0.237061;-0.019043;0.928101;3.173828;-0.244141;2.258301" +:+ CRLF
  +:+ "-0.245972;-0.014648;0.925659;2.990723;-1.037598;2.746582" +:+ CRLF.
Proof. vm_compute. reflexivity. Qed.

(** ** Whole sessions *)

Section Sessions.
Context {P : Platform}.

Lemma command_step_in_session ev st st1 :
  command_step ev st st1 -> sampling st = true ->
  ~ stops_session (serial_line ev) ->
  sampling st1 = true /\ samples st1 = samples st.
Proof.
  intros Hc Hon Hnb.
  destruct Hc as [ | | | | |l Hl _ He| ]; try congruence; try done.
  destruct Hnb. exists l. split; [done|]. by apply equals_empty.
Qed.

Lemma length_samples_full st :
  wf st -> BUFFER_SIZE <= sampleIndex st -> length (samples st) = capacity.
Proof.
  intros Hwf Hfull. rewrite length_samples by done.
  destruct Hwf as [_ Hi]. unfold capacity. lia.
Qed.

Lemma length_samples_le st : wf st -> (length (samples st) <= capacity)%nat.
Proof.
  intros Hwf. rewrite length_samples by done.
  destruct Hwf as [_ Hi]. unfold capacity. lia.
Qed.

Lemma session_collects evs : forall st,
  wf st -> sampling st = true ->
  Forall (fun ev => ~ stops_session (serial_line ev)) evs ->
  exists st',
    run evs st = Done tt st' /\ wf st' /\ sampling st' = true /\
    samples st' = take capacity (samples st ++ ready_readings evs).
Proof.
  induction evs as [|ev evs IH]; intros st Hwf Hon Hall.
  - exists st. do 3 (split; [done|]). cbn [ready_readings].
    rewrite app_nil_r, take_ge; [done|]. by apply length_samples_le.
  - apply Forall_cons in Hall as [Hnb Hall].
    destruct (loop_step ev st Hwf) as (st1 & st2 & Hl & _ & Hc & Ha & Hwf2).
    destruct (command_step_in_session _ _ _ Hc Hon Hnb) as [Hon1 Hsm1].
    pose proof (command_step_wf _ _ _ Hwf Hc) as Hwf1.
    assert (sampling st2 = true) as Hon2
      by by rewrite (acquisition_step_sampling _ _ _ Ha).
    destruct (IH st2 Hwf2 Hon2 Hall) as (st' & Hrun & Hwf' & Hon' & Hsm').
    exists st'. rewrite run_cons, Hl. do 3 (split; [done|]).
    rewrite Hsm', <- Hsm1. cbn [ready_readings].
    destruct Ha as [Hoff|_ Hfull|_ Hroom Hav|_ Hroom Hav].
    + congruence.
    + rewrite !take_app_length'; try done;
        symmetry; by apply length_samples_full.
    + rewrite Hav, samples_push_sample by done. by rewrite <- app_assoc.
    + by rewrite Hav.
Qed.

(** X1.  While a session lasts, that is as long as no line is read on
    which the handler stops it (a line that, trimmed, is empty or begins
    with the byte 0), the buffer is the buffer the session had before,
    followed by the readings of exactly those iterations in which both
    data-ready flags were set, in their order, cut off at the capacity: a
    reading is never skipped, stored twice or overwritten, whatever other
    lines arrive in between. *)
Theorem session_collects_ready_readings (st : State) (evs : list Event) :
  Reachable st -> sampling st = true ->
  Forall (fun ev => ~ stops_session (serial_line ev)) evs ->
  exists st',
    run evs st = Done tt st' /\ sampling st' = true /\
    samples st' = take capacity (samples st ++ ready_readings evs) /\
    exists added, samples st' = samples st ++ added.
Proof.
  intros Hwf%Reachable_wf Hon Hall.
  destruct (session_collects evs st Hwf Hon Hall) as (st' & Hrun & _ & Hon' & Hsm).
  exists st'. do 3 (split; [done|]).
  exists (take (capacity - length (samples st)) (ready_readings evs)).
  rewrite Hsm, take_app, take_ge; [done|]. by apply length_samples_le.
Qed.

(** X2.  In a session with room left, an iteration without a command in
    which one of the two data-ready flags is not set reads neither sensor:
    it stores nothing and reports "Sample failed" followed by the write
    index on a line of its own. *)
Theorem unready_sensor_is_reported (st : State) (ev : Event) :
  Reachable st -> sampling st = true -> sampleIndex st < BUFFER_SIZE ->
  serial_line ev = None ->
  accelerationAvailable (imu ev) = false \/ gyroscopeAvailable (imu ev) = false ->
  loop ev st =
  Done tt (emit ("Sample failed" +:+ CRLF +:+ pretty (sampleIndex st) +:+ CRLF) st).
Proof.
  intros Hwf%Reachable_wf Hon Hroom Hline Hflag.
  destruct (loop_step ev st Hwf) as (st1 & st' & Hl & _ & Hc & Ha & _).
  assert (st1 = st) as -> by (destruct Hc; congruence).
  assert (both_available (imu ev) = false) as Hav.
  { unfold both_available. destruct Hflag as [-> | ->]; [done|apply andb_false_r]. }
  rewrite Hl. f_equal. destruct Ha; (congruence || lia).
Qed.

Lemma reading_ready (r : Sample) : reading (ready r) = r.
Proof. by destruct r. Qed.

Lemma loop_offer_full st r :
  BUFFER_SIZE <= sampleIndex st ->
  loop (mkEvent None (ready r)) st = Done tt st.
Proof.
  intros Hfull.
  assert (loop_command (mkEvent None (ready r)) st = Done tt st) as Hc by done.
  rewrite loop_eq, Hc. by apply loop_acquisition_full.
Qed.

Lemma run_offer rs : forall st,
  wf st -> sampling st = true ->
  exists st',
    run (map (fun r => mkEvent None (ready r)) rs) st = Done tt st' /\
    wf st' /\ sampling st' = true /\
    samples st' = take capacity (samples st ++ rs) /\
    serialOut st' = serialOut st.
Proof.
  induction rs as [|r rs IH]; intros st Hwf Hon.
  - exists st. do 3 (split; [done|]). split; [|done].
    rewrite app_nil_r, take_ge; [done|]. by apply length_samples_le.
  - cbn [map]. rewrite run_cons.
    destruct (Z.lt_ge_cases (sampleIndex st) BUFFER_SIZE) as [Hroom|Hfull].
    + rewrite loop_feed by done.
      destruct (IH (push_sample r st)) as (st' & Hrun & Hwf' & Hon' & Hsm & Hout).
      { by apply wf_push_sample. }
      { by rewrite sampling_push_sample. }
      exists st'. do 3 (split; [done|]).
      rewrite Hsm, Hout, samples_push_sample, serialOut_push_sample by done.
      by rewrite <- app_assoc.
    + rewrite loop_offer_full by done.
      destruct (IH st Hwf Hon) as (st' & Hrun & Hwf' & Hon' & Hsm & Hout).
      exists st'. do 3 (split; [done|]). split; [|done].
      rewrite Hsm, !take_app_length'; try done;
        symmetry; by apply length_samples_full.
Qed.

Lemma run_start_and_feed_any rs st :
  wf st -> sampling st = false ->
  exists st',
    run (start_and_feed rs) st = Done tt st' /\
    wf st' /\ sampling st' = true /\
    samples st' = take capacity rs /\
    serialOut st' =
      serialOut st +:+ "Starting sampling... Press Enter to stop." +:+ CRLF
      +:+ match rs with
          | [] => "Sample failed" +:+ CRLF +:+ "0" +:+ CRLF
          | _ :: _ => EmptyString
          end.
Proof.
  intros Hwf Hoff. destruct rs as [|r rs]; cbn [start_and_feed].
  - rewrite run_cons, loop_start_idle_sensor by done.
    eexists; split; [done|]. split; [by apply wf_emit, wf_started|].
    split; [done|]. split; [done|]. cbn. by rewrite !append_assoc.
  - rewrite run_cons, loop_start_ready by done.
    assert (wf (push_sample r (started st))) as Hwf1.
    { apply wf_push_sample; [by apply wf_started|]. cbn. rewrite BUFFER_SIZE_eq. lia. }
    destruct (run_offer rs (push_sample r (started st)) Hwf1)
      as (st' & Hrun & Hwf' & Hon' & Hsm & Hout).
    { by rewrite sampling_push_sample. }
    exists st'. do 3 (split; [done|]).
    rewrite Hsm, Hout, serialOut_push_sample.
    rewrite samples_push_sample;
      [|by apply wf_started|cbn; rewrite BUFFER_SIZE_eq; lia].
    split; [done|]. cbn. by rewrite append_nil_r.
Qed.

(** X3.  A new session replaces the old buffer.  From any reachable Idle
    state, whatever an earlier session left in the arrays: start with S,
    let the sensor deliver any number of readings, stop with a blank line
    and send D.  The buffer then holds, and the download writes, exactly the
    readings of this session up to the capacity; readings offered after the
    buffer filled up are dropped, and nothing of the earlier session comes
    back. *)
Theorem new_session_replaces_old_buffer
    (st : State) (rs : list Sample) (s_stop s_download : IMU) :
  Reachable st -> sampling st = false ->
  exists st1 st2,
    run (start_and_feed rs ++ [mkEvent (Some EmptyString) s_stop]) st = Done tt st1 /\
    loop (mkEvent (Some "D") s_download) st1 = Done tt st2 /\
    sampling st1 = false /\
    samples st1 = take capacity rs /\
    serialOut st2 = serialOut st1 +:+ text_of (map format_row (take capacity rs)).
Proof.
  intros Hwf%Reachable_wf Hoff.
  destruct (run_start_and_feed_any rs st Hwf Hoff) as (st0 & Hrun & Hwf0 & Hon & Hsm & _).
  rewrite run_app, Hrun, run_cons, loop_blank_sampling by done.
  exists (stopped st0), (emit (download_text (stopped st0)) (stopped st0)).
  split; [done|]. split; [|split; [done|split; [done|]]].
  - apply loop_download_idle; [by apply wf_stopped|done|].
    eexists; split; [done|by left].
  - cbn. unfold download_text. by rewrite <- Hsm.
Qed.

(** X4.  What the host receives for one complete session after power-on
    (S, the readings, a blank line, D): the prompt of [setup], the status
    line of the start, the failure report if the sensor had nothing to
    deliver, the status line of the stop, and only then the data rows. *)
Theorem session_transcript (rs : list Sample) (s_stop s_download : IMU) :
  exists st,
    boot (start_and_feed rs
          ++ [mkEvent (Some EmptyString) s_stop; mkEvent (Some "D") s_download])
      = Done tt st /\
    serialOut st =
      "Enter 'S' to Start/Stop sampling, 'D' to Download and 'X' to Exit program."
      +:+ CRLF
      +:+ "Starting sampling... Press Enter to stop." +:+ CRLF
      +:+ match rs with
          | [] => "Sample failed" +:+ CRLF +:+ "0" +:+ CRLF
          | _ :: _ => EmptyString
          end
      +:+ "Stopping sampling..." +:+ CRLF
      +:+ text_of (map format_row (take capacity rs)).
Proof.
  rewrite boot_eq, run_app.
  destruct (run_start_and_feed_any rs booted wf_booted) as (st0 & Hrun & Hwf0 & Hon & Hsm & Hout);
    [done|].
  rewrite Hrun, run_cons, loop_blank_sampling by done.
  rewrite run_cons, (loop_download_idle (stopped st0));
    [|by apply wf_stopped|done|eexists; split; [done|by left]].
  eexists; split; [done|].
  cbn [serialOut emit stopped with_sampling]. unfold download_text.
  change (samples (stopped st0)) with (samples st0). rewrite Hsm, Hout.
  cbn [serialOut booted emit with_sampling power_on].
  rewrite !append_assoc. done.
Qed.

End Sessions.

(** ** Lines as they come from a terminal *)

Lemma trim_leading_space (a s : string) :
  all_space a = true -> trim_leading (a +:+ s) = trim_leading s.
Proof.
  induction a as [|x a IH]; [done|]. cbn [all_space].
  intros [Hx Ha]%andb_true_iff. rewrite append_cons. cbn [trim_leading].
  rewrite Hx. by apply IH.
Qed.

Lemma trim_trailing_space (b : string) :
  all_space b = true -> trim_trailing b = EmptyString.
Proof.
  induction b as [|x b IH]; [done|]. cbn [all_space trim_trailing].
  intros [Hx Hb]%andb_true_iff. by rewrite (IH Hb), Hx.
Qed.

Lemma trim_all_space (l : string) : all_space l = true -> trim l = EmptyString.
Proof.
  intros Hl. unfold trim.
  rewrite <- (append_nil_r l), trim_leading_space by done. done.
Qed.

Lemma trim_padded (a b : string) (c : ascii) :
  all_space a = true -> all_space b = true -> isspace c = false ->
  trim (a +:+ String c b) = String c EmptyString.
Proof.
  intros Ha Hb Hc. unfold trim. rewrite trim_leading_space by done.
  cbn [trim_leading]. rewrite Hc. cbn [trim_trailing].
  by rewrite trim_trailing_space, Hc.
Qed.

Section Terminal.
Context {P : Platform}.

Lemma loop_depends_on_trimmed_line (l1 l2 : string) (s : IMU) (st : State) :
  trim l1 = trim l2 ->
  loop (mkEvent (Some l1) s) st = loop (mkEvent (Some l2) s) st.
Proof.
  intros Heq. rewrite !loop_eq. unfold loop_command. cbn [serial_line].
  by rewrite Heq.
Qed.

(** X5.  White space around a command does not matter.  A line of white
    space only, such as the carriage return a terminal sends before the
    line feed, counts as the blank line that stops a session; and a
    character with white space before and after it is handled exactly like
    that character alone, so "S" followed by a carriage return is the
    command S. *)
Theorem white_space_around_commands (st : State) (s : IMU) :
  (forall l, sampling st = true -> all_space l = true ->
     loop (mkEvent (Some l) s) st = Done tt (stopped st)) /\
  (forall a b c, all_space a = true -> all_space b = true -> isspace c = false ->
     loop (mkEvent (Some (a +:+ String c b)) s) st =
     loop (mkEvent (Some (String c EmptyString)) s) st).
Proof.
  split.
  - intros l Hon Hl. apply loop_blank_sampling; [done|by apply trim_all_space].
  - intros a b c Ha Hb Hc. apply loop_depends_on_trimmed_line.
    rewrite (trim_padded a b c) by done.
    symmetry. by apply (trim_padded EmptyString EmptyString c).
Qed.

End Terminal.

(** ** The metadata step of AddFilter *)

Lemma string_length_app (a b : string) :
  String.length (a +:+ b) = (String.length a + String.length b)%nat.
Proof.
  induction a as [|x a IH]; [done|].
  rewrite append_cons. cbn [String.length]. by rewrite IH.
Qed.

Lemma regexprep_nil pat rep : regexprep EmptyString pat rep = EmptyString.
Proof. reflexivity. Qed.

Lemma regexprep_skip c s pat rep :
  starts_with pat (String c s) = false ->
  regexprep (String c s) pat rep = String c (regexprep s pat rep).
Proof. intros H. unfold regexprep. cbn [regexprep_from]. by rewrite H. Qed.

Lemma regexprep_match a b s rep :
  regexprep (String a (String b s)) (String a (String b EmptyString)) rep =
  rep +:+ regexprep s (String a (String b EmptyString)) rep.
Proof.
  unfold regexprep. cbn [regexprep_from starts_with String.length Nat.sub].
  by rewrite !bool_decide_eq_true_2 by done.
Qed.

Lemma starts_with_cons a pat c s :
  starts_with (String a pat) (String c s) = bool_decide (a = c) && starts_with pat s.
Proof. reflexivity. Qed.

Lemma occurs_cons pat c s :
  occurs pat (String c s) = starts_with pat (String c s) || occurs pat s.
Proof. reflexivity. Qed.

Lemma regexprep_absent pat rep s :
  occurs pat s = false -> regexprep s pat rep = s.
Proof.
  induction s as [|c s IH]; [done|]. rewrite occurs_cons.
  intros [Hhere Hlater]%orb_false_iff.
  by rewrite regexprep_skip, IH.
Qed.

(** Either the text is empty, or it starts with the two characters of the
    expression, or its first character is copied. *)
Lemma two_char_cases a b s :
  s = EmptyString \/
  (exists t, s = String a (String b t)) \/
  (exists c t, s = String c t /\
     starts_with (String a (String b EmptyString)) s = false).
Proof.
  destruct s as [|c s]; [by left|]. right.
  destruct (starts_with (String a (String b EmptyString)) (String c s)) eqn:Hm.
  - left. cbn [starts_with] in Hm.
    apply andb_true_iff in Hm as [->%bool_decide_eq_true Hm].
    destruct s as [|d s]; [done|].
    apply andb_true_iff in Hm as [->%bool_decide_eq_true _]. by exists s.
  - right. by exists c, s.
Qed.

Lemma by_length (Q : string -> Prop) :
  (forall n s, (forall t, (String.length t < n)%nat -> Q t) ->
     String.length s = n -> Q s) ->
  forall s, Q s.
Proof.
  intros Hstep s. remember (String.length s) as n eqn:Hn.
  revert s Hn. induction (lt_wf n) as [n _ IH]. intros s Hn.
  apply (Hstep n s); [|done]. intros t Ht. by apply (IH (String.length t)).
Qed.

Lemma regexprep_p0_length s :
  String.length (regexprep s "p0" "p1") = String.length s.
Proof.
  induction s as [n s IH Hn] using by_length.
  destruct (two_char_cases "p" "0" s) as [->|[[t ->]|(c & t & -> & Hm)]].
  - done.
  - rewrite regexprep_match, string_length_app. cbn [String.length] in *.
    rewrite IH by lia. done.
  - rewrite regexprep_skip by done. cbn [String.length] in *.
    rewrite IH by lia. done.
Qed.

Lemma regexprep_p0_zero s :
  starts_with "0" (regexprep s "p0" "p1") = starts_with "0" s.
Proof.
  destruct (two_char_cases "p" "0" s) as [->|[[t ->]|(c & t & -> & Hm)]].
  - done.
  - by rewrite regexprep_match.
  - by rewrite regexprep_skip.
Qed.

Lemma regexprep_p0_clears s : occurs "p0" (regexprep s "p0" "p1") = false.
Proof.
  induction s as [n s IH Hn] using by_length.
  destruct (two_char_cases "p" "0" s) as [->|[[t ->]|(c & t & -> & Hm)]].
  - done.
  - rewrite regexprep_match. cbn [String.length] in Hn.
    change ("p1" +:+ ?r) with (String "p" (String "1" r)).
    rewrite !occurs_cons, IH by lia. done.
  - rewrite regexprep_skip by done. cbn [String.length] in Hn.
    rewrite occurs_cons, IH by lia. rewrite orb_false_r.
    rewrite starts_with_cons in *. by rewrite regexprep_p0_zero.
Qed.

(** X6.  The name of the filtered file has the length of the original
    name and no "p0" left in it; so a name that already went through the
    step is not changed by it again. *)
Theorem filtered_name_has_no_raw_flag (FileName : string) :
  String.length (regexprep FileName "p0" "p1") = String.length FileName /\
  occurs "p0" (regexprep FileName "p0" "p1") = false /\
  regexprep (regexprep FileName "p0" "p1") "p0" "p1" = regexprep FileName "p0" "p1".
Proof.
  split; [apply regexprep_p0_length|]. split; [apply regexprep_p0_clears|].
  apply regexprep_absent, regexprep_p0_clears.
Qed.

Lemma regexprep_prefix a b rep (pre s : string) :
  occurs (String a (String b EmptyString)) (pre +:+ String b EmptyString) = false ->
  regexprep (pre +:+ s) (String a (String b EmptyString)) rep =
  pre +:+ regexprep s (String a (String b EmptyString)) rep.
Proof.
  induction pre as [|c pre IH]; [done|]. rewrite !append_cons, occurs_cons.
  intros [Hhere Hlater]%orb_false_iff.
  rewrite regexprep_skip, IH; [done|done|].
  rewrite starts_with_cons in Hhere |- *.
  destruct (bool_decide (a = c)); [|done]. cbn [andb] in *.
  destruct pre as [|d pre].
  - rewrite append_nil_l, starts_with_cons, bool_decide_eq_true_2 in Hhere by done.
    done.
  - rewrite append_cons, starts_with_cons in Hhere |- *.
    by destruct (bool_decide (b = d)).
Qed.

Lemma regexprep_once a b rep (pre post : string) :
  a <> b ->
  occurs (String a (String b EmptyString)) pre = false ->
  occurs (String a (String b EmptyString)) post = false ->
  regexprep (pre +:+ String a (String b post)) (String a (String b EmptyString)) rep =
  pre +:+ rep +:+ post.
Proof.
  intros Hab Hpre Hpost. induction pre as [|c pre IH].
  - rewrite !append_nil_l, regexprep_match. by rewrite regexprep_absent.
  - rewrite occurs_cons in Hpre. apply orb_false_iff in Hpre as [Hhere Hlater].
    rewrite !append_cons, regexprep_skip, IH; [done|done|].
    rewrite starts_with_cons in Hhere |- *.
    destruct (bool_decide (a = c)); [|done]. cbn [andb] in *.
    destruct pre as [|d pre].
    + rewrite append_nil_l, starts_with_cons.
      rewrite bool_decide_eq_false_2; [done|]. congruence.
    + rewrite append_cons, starts_with_cons in *.
      by destruct (bool_decide (b = d)).
Qed.

(** X7.  When "p0" occurs exactly once in the name of the raw file, the
    name of the filtered file differs from it in that one place only, where
    it has "p1". *)
Theorem filtered_name_changes_only_the_flag (pre post : string) :
  occurs "p0" pre = false -> occurs "p0" post = false ->
  regexprep (pre +:+ "p0" +:+ post) "p0" "p1" = pre +:+ "p1" +:+ post.
Proof. intros Hpre Hpost. by apply (regexprep_once "p" "0"). Qed.

Lemma length_read_header file : length (read_header file) = (startRow - 1)%nat.
Proof. unfold read_header. by rewrite length_map, length_seq. Qed.

Lemma lookup_read_header file i :
  (i < startRow - 1)%nat -> read_header file !! i = Some (file !! i).
Proof.
  intros Hi. unfold read_header.
  change (map ?f ?l) with (f <$> l).
  by rewrite list_lookup_fmap, lookup_seq_lt.
Qed.

Lemma cell_text_read_header file i :
  (1 <= i <= startRow - 1)%nat -> cell_text (read_header file) i = file !! (i - 1)%nat.
Proof.
  intros Hi. unfold cell_text. rewrite lookup_read_header by lia. done.
Qed.

Lemma AddFilter_header_eq FileName file l7 l12 :
  file !! 6%nat = Some l7 -> file !! 11%nat = Some l12 ->
  AddFilter_header FileName file =
  Some (regexprep FileName "p0" "p1",
        <[6%nat := Some (regexprep l7 "p0" "p1")]>
          (<[11%nat := Some (regexprep l12 "No" "Yes")]> (read_header file))).
Proof.
  intros H7 H12. unfold AddFilter_header.
  rewrite cell_text_read_header by (unfold startRow; lia).
  cbn [Nat.sub]. rewrite H12.
  unfold cell_text, read_header. cbn. by rewrite H7.
Qed.

(** X8.  On a file of at least twelve lines the metadata step succeeds:
    the header has [startRow - 1] cells, cell 7 is line 7 with every "p0"
    turned into "p1", cell 12 is line 12 with every "No" turned into "Yes",
    and every other cell is the line of the file as it was read (or the end
    of file marker when the file is shorter than the header). *)
Theorem AddFilter_header_rewrites_two_lines (FileName : string) (file : list string) :
  (12 <= length file)%nat ->
  exists l7 l12 Header,
    file !! 6%nat = Some l7 /\ file !! 11%nat = Some l12 /\
    AddFilter_header FileName file = Some (regexprep FileName "p0" "p1", Header) /\
    length Header = 17%nat /\
    Header !! 6%nat = Some (Some (regexprep l7 "p0" "p1")) /\
    Header !! 11%nat = Some (Some (regexprep l12 "No" "Yes")) /\
    forall i, (i < 17)%nat -> i <> 6%nat -> i <> 11%nat ->
      Header !! i = Some (file !! i).
Proof.
  intros Hlen.
  destruct (lookup_lt_is_Some_2 file 6) as [l7 H7]; [lia|].
  destruct (lookup_lt_is_Some_2 file 11) as [l12 H12]; [lia|].
  exists l7, l12. eexists. do 2 (split; [done|]).
  split; [by apply AddFilter_header_eq|].
  split; [by rewrite !length_insert, length_read_header|].
  split; [|split].
  - apply list_lookup_insert_eq. rewrite length_insert, length_read_header.
    unfold startRow. lia.
  - rewrite list_lookup_insert_ne by done.
    apply list_lookup_insert_eq. rewrite length_read_header. unfold startRow. lia.
  - intros i Hi H6 H11. rewrite !list_lookup_insert_ne by done.
    apply lookup_read_header. unfold startRow. lia.
Qed.

(** X9.  The metadata step raises an error exactly when the file has fewer
    than twelve lines: line 12 is then the end-of-file marker, on which the
    first [regexprep] fails. *)
Theorem AddFilter_header_needs_twelve_lines (FileName : string) (file : list string) :
  AddFilter_header FileName file = None <-> (length file < 12)%nat.
Proof.
  split.
  - intros Hnone. destruct (Nat.lt_ge_cases (length file) 12) as [|Hlen]; [done|].
    destruct (lookup_lt_is_Some_2 file 6) as [l7 H7]; [lia|].
    destruct (lookup_lt_is_Some_2 file 11) as [l12 H12]; [lia|].
    by rewrite (AddFilter_header_eq _ _ l7 l12) in Hnone.
  - intros Hlen. unfold AddFilter_header.
    rewrite cell_text_read_header by (unfold startRow; lia).
    cbn [Nat.sub]. by rewrite lookup_ge_None_2 by lia.
Qed.

(** X10.  The header stays consistent with the file it is written to.  If
    line 7 is a label followed by the name of the raw file and line 12 is a
    label followed by "No", where the label of line 7 followed by the
    character 0 contains no "p0" (the label contains no "p0" and does not
    end in p) and the label of line 12 contains no "No", then in the new
    header line 7 is the same label followed by the name of the filtered
    file, and line 12 is its label followed by "Yes". *)
Theorem header_follows_the_new_file
    (FileName name_label flag_label : string) (file : list string) :
  file !! 6%nat = Some (name_label +:+ FileName) ->
  file !! 11%nat = Some (flag_label +:+ "No") ->
  occurs "p0" (name_label +:+ "0") = false ->
  occurs "No" flag_label = false ->
  exists NewFileName Header,
    AddFilter_header FileName file = Some (NewFileName, Header) /\
    cell_text Header 7 = Some (name_label +:+ NewFileName) /\
    cell_text Header 12 = Some (flag_label +:+ "Yes").
Proof.
  intros H7 H12 Hname Hflag.
  pose proof (lookup_lt_Some _ _ _ H12) as Hlen.
  eexists _, _. split; [by apply AddFilter_header_eq|].
  unfold cell_text. cbn [Nat.sub]. split.
  - rewrite list_lookup_insert_eq.
    + cbn. f_equal. by apply (regexprep_prefix "p" "0").
    + rewrite length_insert, length_read_header. unfold startRow. lia.
  - rewrite list_lookup_insert_ne by done. rewrite list_lookup_insert_eq.
    + cbn. f_equal.
      rewrite (regexprep_once "N" "o" "Yes" flag_label EmptyString); done.
    + rewrite length_read_header. unfold startRow. lia.
Qed.

(** ** Concrete runs of the added properties *)

Lemma session_collects_ready_readings_witness :
  Reachable demo_sampling /\ sampling demo_sampling = true /\
  Forall (fun ev => ~ stops_session (serial_line ev))
    [offer (Some "D"); half_ready; offer None] /\
  exists st',
    run [offer (Some "D"); half_ready; offer None] demo_sampling = Done tt st' /\
    samples st' =
      take capacity
        (samples demo_sampling
         ++ ready_readings [offer (Some "D"); half_ready; offer None]).
Proof.
  assert (Reachable demo_sampling) as Hr by apply Reachable_state_after.
  assert (sampling demo_sampling = true) as Hon by (vm_compute; reflexivity).
  assert (Forall (fun ev : @Event synthetic => ~ stops_session (serial_line ev))
            [offer (Some "D"); half_ready; offer None]) as Hall.
  { repeat constructor.
    - intros (l & Hl & Hb). injection Hl as <-. vm_compute in Hb.
      destruct Hb as [Hb|(rest & Hb)]; discriminate Hb.
    - intros (l & Hl & _). discriminate Hl.
    - intros (l & Hl & _). discriminate Hl. }
  do 3 (split; [assumption|]).
  destruct (session_collects_ready_readings demo_sampling _ Hr Hon Hall)
    as (st' & Hrun & _ & Hsm & _).
  exists st'. split; assumption.
Defined.

Lemma unready_sensor_is_reported_witness :
  Reachable demo_sampling /\ sampling demo_sampling = true /\
  sampleIndex demo_sampling < BUFFER_SIZE /\
  serial_line half_ready = None /\
  (accelerationAvailable (imu half_ready) = false \/
   gyroscopeAvailable (imu half_ready) = false) /\
  loop half_ready demo_sampling =
  Done tt (emit ("Sample failed" +:+ CRLF +:+ pretty (sampleIndex demo_sampling)
                 +:+ CRLF) demo_sampling).
Proof.
  assert (Reachable demo_sampling) as Hr by apply Reachable_state_after.
  assert (sampling demo_sampling = true) as Hon by (vm_compute; reflexivity).
  assert (sampleIndex demo_sampling < BUFFER_SIZE) as Hroom
    by (vm_compute; reflexivity).
  do 3 (split; [assumption|]). split; [reflexivity|].
  split; [right; reflexivity|].
  apply (unready_sensor_is_reported demo_sampling half_ready Hr Hon Hroom);
    [reflexivity|right; reflexivity].
Defined.

Lemma new_session_replaces_old_buffer_witness :
  Reachable demo_stopped /\ sampling demo_stopped = false /\
  exists st1 st2,
    run (start_and_feed [reading_b] ++ [quiet (Some EmptyString)]) demo_stopped
      = Done tt st1 /\
    loop (quiet (Some "D")) st1 = Done tt st2 /\
    sampling st1 = false /\
    samples st1 = take capacity [reading_b] /\
    serialOut st2 =
      serialOut st1 +:+ text_of (map format_row (take capacity [reading_b])).
Proof.
  assert (Reachable demo_stopped) as Hr by apply Reachable_state_after.
  assert (sampling demo_stopped = false) as Hoff by (vm_compute; reflexivity).
  do 2 (split; [assumption|]).
  apply (new_session_replaces_old_buffer demo_stopped [reading_b] idle idle Hr Hoff).
Defined.

Lemma filtered_name_changes_only_the_flag_witness :
  occurs "p0" "A_s01v01n0001" = false /\ occurs "p0" "a0f0.csv" = false /\
  regexprep ("A_s01v01n0001" +:+ "p0" +:+ "a0f0.csv") "p0" "p1" =
  "A_s01v01n0001" +:+ "p1" +:+ "a0f0.csv".
Proof.
  split; [reflexivity|]. split; [reflexivity|].
  apply (filtered_name_changes_only_the_flag "A_s01v01n0001" "a0f0.csv");
    reflexivity.
Defined.

Lemma AddFilter_header_rewrites_two_lines_witness :
  (12 <= length raw_file)%nat /\
  exists l7 l12 Header,
    raw_file !! 6%nat = Some l7 /\ raw_file !! 11%nat = Some l12 /\
    AddFilter_header raw_name raw_file
      = Some (regexprep raw_name "p0" "p1", Header) /\
    length Header = 17%nat /\
    Header !! 6%nat = Some (Some (regexprep l7 "p0" "p1")) /\
    Header !! 11%nat = Some (Some (regexprep l12 "No" "Yes")) /\
    forall i, (i < 17)%nat -> i <> 6%nat -> i <> 11%nat ->
      Header !! i = Some (raw_file !! i).
Proof.
  assert (12 <= length raw_file)%nat as Hlen by (cbn; lia).
  split; [assumption|].
  apply (AddFilter_header_rewrites_two_lines raw_name raw_file Hlen).
Defined.

Lemma header_follows_the_new_file_witness :
  raw_file !! 6%nat = Some ("FileName: " +:+ raw_name) /\
  raw_file !! 11%nat = Some ("Preprocessing Filter: " +:+ "No") /\
  occurs "p0" ("FileName: " +:+ "0") = false /\
  occurs "No" "Preprocessing Filter: " = false /\
  exists NewFileName Header,
    AddFilter_header raw_name raw_file = Some (NewFileName, Header) /\
    cell_text Header 7 = Some ("FileName: " +:+ NewFileName) /\
    cell_text Header 12 = Some ("Preprocessing Filter: " +:+ "Yes").
Proof.
  do 4 (split; [reflexivity|]).
  apply (header_follows_the_new_file raw_name "FileName: "
           "Preprocessing Filter: " raw_file); reflexivity.
Defined.

(** The condition on the label of line 7 cannot be dropped: with the label
    p, which contains no "p0", and the file 0.csv the pattern matches across
    the boundary, and line 7 of the new header is no longer the label
    followed by the name of the new file. *)
Example label_ending_in_p :
  occurs "p0" "p" = false /\
  exists Header,
    AddFilter_header "0.csv" (<[6%nat := "p" +:+ "0.csv"]> raw_file)
      = Some ("0.csv", Header) /\
    cell_text Header 7 = Some "p1.csv" /\
    "p1.csv" <> "p" +:+ "0.csv".
Proof.
  split; [vm_compute; reflexivity|].
  eexists. split; [vm_compute; reflexivity|].
  split; [vm_compute; reflexivity|]. vm_compute. discriminate.
Qed.

Example filtered_sample_file :
  AddFilter_header raw_name raw_file =
  Some ("A_s01v01n0001p1a0f0.csv",
        map Some
          (<[6%nat := "FileName: A_s01v01n0001p1a0f0.csv"]>
             (<[11%nat := "Preprocessing Filter: Yes"]> (take 17 raw_file)))).
Proof. vm_compute. reflexivity. Qed.
